(** * lsmr_proc: a process pool that scatters, broadcasts and gathers data

    Shallow embedding of [python/basics/multiprocessing/lsmr_proc.py] and the
    properties its specification states about it.

    Python integers are unbounded and are modelled by [Z].  Dictionaries
    with string keys are [gmap string _].  An exception that leaves a
    function is a [Raise] result; the state reached before it is kept.

    The children share nothing with main or with each other and talk to
    main only over their own first-in first-out pipe, so what a child does
    is a function of the requests it receives, in order.  A child is
    therefore a state machine with the queue of requests sent to it and
    the queue of replies it has sent; its loop is run over the pending
    requests when main waits for a reply, or when the pool is settled. *)

From stdpp Require Import gmap strings list fin_maps.
From Stdlib Require Import ZArith Lia.

Open Scope Z_scope.

Set Warnings "-register-all".

(** ** Exceptions and results *)

(** Python values as far as the model follows them: None, integers,
    strings, lists and tuples.  numpy arrays are not among them: an array
    appears only as what [numpy.concatenate] returns (see [ndarray]
    below), not as a value in a store or a request. *)
Inductive value : Type :=
  | VNone
  | VInt (z : Z)
  | VStr (s : string)
  | VList (l : list value)
  | VTuple (l : list value).

Inductive exn : Type :=
  | IndexError
  | KeyError (k : value)
  | TypeError
  | ValueError
  | EOFError
  | OverflowError
  | ZeroDivisionError
  | ReservedKey        (* the Exception raised by run_function's guard *)
  | OpRaised (msg : string). (* raised inside a dispatched operation *)

(** [Blocked]: the call never returns (a [recv] nobody answers). *)
Inductive result (A : Type) : Type :=
  | Return (a : A)
  | Raise (e : exn)
  | Blocked.
Arguments Return {A} a.
Arguments Raise {A} e.
Arguments Blocked {A}.

#[global] Instance result_ret : MRet result := @Return.
#[global] Instance result_bind : MBind result := λ A B f r,
  match r with
  | Return a => f a
  | Raise e => Raise e
  | Blocked => Blocked
  end.

(** [for x in xs: acc = body(x, acc)], leaving at the first exception. *)
Fixpoint for_in {A B : Type} (xs : list A) (body : A → B → result B) (acc : B)
  : result B :=
  match xs with
  | [] => Return acc
  | x :: xs' => acc' ← body x acc; for_in xs' body acc'
  end.

(** ** Python sequences *)

(** [range(a, b)] is [seqZ a (b - a)]; it is empty when [b <= a]. *)
Definition range (a b : Z) : list Z := seqZ a (b - a).

Definition len {A : Type} (l : list A) : Z := Z.of_nat (length l).

(** [l[i]]: a negative index counts from the end, anything outside the
    list raises IndexError. *)
Definition py_index {A : Type} (l : list A) (i : Z) : result A :=
  let j := if i <? 0 then i + len l else i in
  if (0 <=? j) && (j <? len l) then
    match l !! Z.to_nat j with
    | Some x => Return x
    | None => Raise IndexError
    end
  else Raise IndexError.

(** Slice bounds are clipped to the list, negative ones count from the end. *)
Definition clip {A : Type} (l : list A) (i : Z) : nat :=
  let j := if i <? 0 then i + len l else i in
  Z.to_nat (Z.min (Z.max j 0) (len l)).

(** [l[i:j]] *)
Definition py_slice {A : Type} (l : list A) (i j : Z) : list A :=
  take (clip l j - clip l i)%nat (drop (clip l i) l).

(** [l[i:]] *)
Definition py_slice_from {A : Type} (l : list A) (i : Z) : list A :=
  drop (clip l i) l.

(** ** The partitioner *)

(** [floor(log2(x / y))] for positive [x] and [y]: the binary exponent
    of the quotient. *)
Definition float_exponent (x y : Z) : Z :=
  let d := Z.log2 x - Z.log2 y in
  if x * 2 ^ Z.max 0 (- d) <? y * 2 ^ Z.max 0 d then d - 1 else d.

(** [n / d] rounded to the nearest integer, a tie to the even one. *)
Definition round_half_even (n d : Z) : Z :=
  let q := n `div` d in
  let r := n `mod` d in
  if 2 * r <? d then q
  else if d <? 2 * r then q + 1
  else if Z.even q then q else q + 1.

(** [int(a / b)] for integers [a] and [b].  [a / b] is the double nearest
    to the quotient (53 significant bits, ties to even, exponent at least
    -1074); it raises ZeroDivisionError for [b = 0] and OverflowError when
    that double would be 2^1024 or more.  [int] then drops the fraction.
    With [p] the exponent of the last significant bit, the double is
    [m * 2^p]. *)
Definition int_truediv (a b : Z) : result Z :=
  if b =? 0 then Raise ZeroDivisionError
  else if a =? 0 then Return 0
  else
    let x := Z.abs a in
    let y := Z.abs b in
    let p := Z.max (float_exponent x y - 52) (-1074) in
    let m := round_half_even (x * 2 ^ Z.max 0 (- p)) (y * 2 ^ Z.max 0 p) in
    if (0 <=? p) && (2 ^ 1024 <=? m * 2 ^ p) then Raise OverflowError
    else
      Return (Z.sgn a * Z.sgn b
              * (if 0 <=? p then m * 2 ^ p else m `div` 2 ^ (- p))).

Definition _split (start length num_splits : Z) : result (list (Z * Z)) :=
  if length >=? num_splits then
    (* standard case *)
    indices ← for_in (range 0 num_splits)
      (λ i indices,
         q ← int_truediv (length * i) num_splits;
         Return (indices ++ [start + q]))
      [];
    result ← for_in (range 0 (len indices - 1))
      (λ i result,
         a ← py_index indices i;
         b ← py_index indices (i + 1);
         Return (result ++ [(a, b - a)]))
      [];
    last ← py_index indices (-1);
    let final_length := start + length - last in
    Return (result ++ [(last, final_length)])
  else
    (* special case *)
    let '(result, _) :=
      fold_left
        (λ '(result, index) (_ : Z),
           if index <? start + length
           then (result ++ [(index, 1)], index + 1)
           else (result ++ [(index, 0)], index))
        (range 0 num_splits) ([], start) in
    Return result.

(** ** Dictionaries *)

Abbreviation dict := (gmap string value).

(** [v == s] for a string literal [s] *)
Definition is_str (v : value) (s : string) : bool :=
  match v with
  | VStr s' => bool_decide (s' = s)
  | _ => false
  end.

Fixpoint hashable (v : value) : bool :=
  match v with
  | VNone | VInt _ | VStr _ => true
  | VTuple l => forallb hashable l
  | VList _ => false
  end.

(** [d[k]]: the keys of [d] are strings, so any other hashable key is
    missing and an unhashable one is a TypeError. *)
Definition py_getitem (d : dict) (k : value) : result value :=
  match k with
  | VStr s =>
      match d !! s with
      | Some v => Return v
      | None => Raise (KeyError k)
      end
  | _ => if hashable k then Raise (KeyError k) else Raise TypeError
  end.

(** [var_list += v]: extends the list with the items of the iterable [v]. *)
Definition chars (s : string) : list value :=
  (λ c, VStr (String c EmptyString)) <$> String.list_ascii_of_string s.

Definition extend (var_list : list value) (v : value) : result (list value) :=
  match v with
  | VList l | VTuple l => Return (var_list ++ l)
  | VStr s => Return (var_list ++ chars s)
  | VNone | VInt _ => Raise TypeError
  end.

(** An item of the tuple handed to [numpy.concatenate]: a Python value
    still to be converted, or an array that numpy returned before. *)
Inductive array_like (ndarray : Type) : Type :=
  | Obj (v : value)
  | Arr (a : ndarray).
Arguments Obj {ndarray} v.
Arguments Arr {ndarray} a.

(** ** Worker processes *)

Inductive status : Type :=
  | Listening            (* blocked in conn.recv() *)
  | Stopped              (* _message_loop returned *)
  | Crashed (e : exn).   (* an exception left _message_loop *)

(** A child process together with its pipe.  [w_inbox] holds the requests
    main has sent and the child has not received yet, [w_outbox] the
    replies the child has sent and main has not received yet; both are
    first-in first-out.  [w_log] records the arguments of each print. *)
Record worker : Type := Worker {
  w_data : dict;
  w_inbox : list dict;
  w_outbox : list value;
  w_log : list (list value);
  w_status : status }.

Definition set_data (d : dict) (w : worker) : worker :=
  Worker d (w_inbox w) (w_outbox w) (w_log w) (w_status w).
Definition set_inbox (i : list dict) (w : worker) : worker :=
  Worker (w_data w) i (w_outbox w) (w_log w) (w_status w).
Definition set_outbox (o : list value) (w : worker) : worker :=
  Worker (w_data w) (w_inbox w) o (w_log w) (w_status w).
Definition print (args : list value) (w : worker) : worker :=
  Worker (w_data w) (w_inbox w) (w_outbox w) (w_log w ++ [args]) (w_status w).
Definition set_status (s : status) (w : worker) : worker :=
  Worker (w_data w) (w_inbox w) (w_outbox w) (w_log w) s.

(** [pipe.send(request)] on main's end: the request is pickled, so the
    child gets a copy as it is now, and the pipe takes it whatever the
    child is doing. *)
Definition send (request : dict) (w : worker) : worker :=
  set_inbox (w_inbox w ++ [request]) w.

(** An operation found by name in [globals()]: it is called with the
    request, which it reads, works on the process's [_process_data] and
    may raise.  The result is the store it leaves and the message of the
    exception, if any.  A global that cannot be called with one argument is
    an operation that raises at once. *)
Abbreviation operation := (dict → dict → dict * option string).

Section Framework.

(** The module's global namespace, the same in main and in every child. *)
Variable globals : gmap string operation.

(** numpy lies outside the module.  Its arrays are a type the module only
    hands on, and [numpy.concatenate((a, b))] is a function that returns
    an array or raises; how it converts and joins is numpy's business. *)
Variable ndarray : Type.
Variable numpy_concatenate :
  array_like ndarray → array_like ndarray → result ndarray.

(** One iteration of the [while True] body of [_message_loop], for a
    request that [conn.recv()] has returned. *)
Definition step (request : dict) (w : worker) : worker :=
  match request !! "op" with
  | None => set_status (Crashed (KeyError (VStr "op"))) w
  | Some op =>
      if is_str op "shutdown" then set_status Stopped w
      else if is_str op "set_data" then
        set_data (delete "op" request ∪ w_data w) w
      else if is_str op "get_var" then
        match request !! "var_name" with
        | None => set_status (Crashed (KeyError (VStr "var_name"))) w
        | Some var_name =>
            match py_getitem (w_data w) var_name with
            | Return v => set_outbox (w_outbox w ++ [v]) w
            | Raise e => set_status (Crashed e) w
            | Blocked => w
            end
        end
      else if is_str op "clear_all_data" then set_data ∅ w
      else if is_str op "run_function" then
        match request !! "op_name" with
        | None => set_status (Crashed (KeyError (VStr "op_name"))) w
        | Some op_name =>
            match op_name with
            | VStr name =>
                match globals !! name with
                | Some f =>
                    match f request (w_data w) with
                    | (d, None) => set_data d w
                    | (d, Some msg) =>
                        set_status (Crashed (OpRaised msg)) (set_data d w)
                    end
                | None =>
                    print [VStr "op_name:"; op_name]
                      (print [VStr "Unhandled operation:"; op] w)
                end
            | _ =>
                if hashable op_name then
                  print [VStr "op_name:"; op_name]
                    (print [VStr "Unhandled operation:"; op] w)
                else set_status (Crashed TypeError) w
            end
        end
      else print [VStr "Unhandled operation:"; op] w
  end.

(** The loop over the requests waiting in the pipe: it goes on until the
    pipe is empty (the process blocks in [recv], still [Listening]), a
    shutdown request makes it return, or an exception ends the process.
    Requests behind that point stay in the pipe. *)
Fixpoint serve (w : worker) (inbox : list dict) : worker :=
  match inbox with
  | [] => set_inbox [] w
  | request :: rest =>
      match w_status w with
      | Listening => serve (step request w) rest
      | _ => set_inbox inbox w
      end
  end.

Definition _message_loop (w : worker) : worker := serve w (w_inbox w).

(** [pipe.recv()] on main's end: main waits until the child has sent a
    reply.  The child works through its pending requests meanwhile; if it
    sends nothing main waits for ever, or gets EOFError once the child is
    gone. *)
Definition recv (w : worker) : result value * worker :=
  let w := _message_loop w in
  match w_outbox w with
  | v :: rest => (Return v, set_outbox rest w)
  | [] =>
      match w_status w with
      | Listening => (Blocked, w)
      | _ => (Raise EOFError, w)
      end
  end.

(** ** The main process *)

(** Module state of the main process, and the dict objects its caller
    holds, by reference. *)
Record pool : Type := Pool {
  _cpu_count : Z;
  _pipes : list worker;
  _process_data : dict;
  heap : gmap positive dict }.

Definition set_pipes (ws : list worker) (st : pool) : pool :=
  Pool (_cpu_count st) ws (_process_data st) (heap st).
Definition set_process_data (d : dict) (st : pool) : pool :=
  Pool (_cpu_count st) (_pipes st) d (heap st).
Definition set_object (r : positive) (d : dict) (st : pool) : pool :=
  Pool (_cpu_count st) (_pipes st) (_process_data st) (<[r := d]> (heap st)).
Definition object (st : pool) (r : positive) : dict :=
  default ∅ (heap st !! r).

(** [for i in range(0, len(_pipes))], with [_pipes[i]] at hand and an
    accumulator; stops at the first exception, keeping what was done. *)
Fixpoint for_pipes {A : Type} (body : Z → worker → A → result A * worker)
    (i : Z) (pipes : list worker) (acc : A) : result A * list worker :=
  match pipes with
  | [] => (Return acc, [])
  | pipe :: pipes' =>
      match body i pipe acc with
      | (Return acc', pipe') =>
          let '(r, rest) := for_pipes body (i + 1) pipes' acc' in
          (r, pipe' :: rest)
      | (Raise e, pipe') => (Raise e, pipe' :: pipes')
      | (Blocked, pipe') => (Blocked, pipe' :: pipes')
      end
  end.

(** A child starts from a copy of the parent's module state (fork), so
    its store is main's at that moment; a spawned child re-imports the
    module and starts empty.  Both agree for a pool started before any
    data is stored. *)
Definition start_processes (st : pool) : pool :=
  fold_left
    (λ st (_ : Z),
       set_pipes (_pipes st ++ [Worker (_process_data st) [] [] [] Listening]) st)
    (range 0 (_cpu_count st - 1)) st.

Definition send_same_data (data_dict : positive) (st : pool) : pool :=
  let st := set_process_data (object st data_dict ∪ _process_data st) st in
  let st := set_object data_dict
              (<["op" := VStr "set_data"]> (object st data_dict)) st in
  set_pipes (send (object st data_dict) <$> _pipes st) st.

Definition split_list_and_send (data_list : list value) (var_name : string)
    (st : pool) : result unit * pool :=
  match _split 0 (len data_list) (_cpu_count st) with
  | Return indices_and_lengths =>
      let '(r, pipes) :=
        for_pipes
          (λ i pipe (_ : unit),
             match py_index indices_and_lengths i with
             | Return (index, length) =>
                 (Return tt,
                  if length >? 0 then
                    send (<[var_name := VList (py_slice data_list index (index + length))]>
                            {["op" := VStr "set_data"]}) pipe
                  else pipe)
             | Raise e => (Raise e, pipe)
             | Blocked => (Blocked, pipe)
             end)
          0 (_pipes st) tt in
      let st := set_pipes pipes st in
      match r with
      | Return _ =>
          match py_index indices_and_lengths (-1) with
          | Return (index, _) =>
              (Return tt,
               set_process_data
                 (<[var_name := VList (py_slice_from data_list index)]>
                    (_process_data st)) st)
          | Raise e => (Raise e, st)
          | Blocked => (Blocked, st)
          end
      | Raise e => (Raise e, st)
      | Blocked => (Blocked, st)
      end
  | Raise e => (Raise e, st)
  | Blocked => (Blocked, st)
  end.

Definition run_function (function_name : string) (arg_dict : option positive)
    (st : pool) : result unit * pool :=
  let '(arg_dict, st) :=
    match arg_dict with
    | Some r => (r, st)
    | None => let r := fresh (dom (heap st)) in (r, set_object r ∅ st)
    end in
  if bool_decide (is_Some (object st arg_dict !! "op"))
     || bool_decide (is_Some (object st arg_dict !! "op_name"))
  then (Raise ReservedKey, st)
  else
    let st := set_object arg_dict
                (<["op" := VStr "run_function"]> (object st arg_dict)) st in
    let st := set_object arg_dict
                (<["op_name" := VStr function_name]> (object st arg_dict)) st in
    let st := set_pipes (send (object st arg_dict) <$> _pipes st) st in
    match globals !! function_name with
    | None => (Raise (KeyError (VStr function_name)), st)
    | Some f =>
        match f (object st arg_dict) (_process_data st) with
        | (d, None) => (Return tt, set_process_data d st)
        | (d, Some msg) => (Raise (OpRaised msg), set_process_data d st)
        end
    end.

Definition get_var (var_name : string) : dict :=
  <["var_name" := VStr var_name]> {["op" := VStr "get_var"]}.

Definition concat_var_into_list (var_name : string) (st : pool)
    : result (list value) * pool :=
  let st := set_pipes (send (get_var var_name) <$> _pipes st) st in
  let '(r, pipes) :=
    for_pipes
      (λ _ pipe var_list,
         let '(reply, pipe) := recv pipe in
         (v ← reply; extend var_list v, pipe))
      0 (_pipes st) [] in
  let st := set_pipes pipes st in
  (var_list ← r;
   v ← py_getitem (_process_data st) (VStr var_name);
   extend var_list v, st).

Definition concat_var_into_numpy_array (var_name : string) (st : pool)
    : result ndarray * pool :=
  let st := set_pipes (send (get_var var_name) <$> _pipes st) st in
  let '(r, pipes) :=
    for_pipes
      (λ _ pipe var_array,
         let '(reply, pipe) := recv pipe in
         (v ← reply;
          match var_array with
          | Obj VNone => Return (Obj v)
          | _ => a ← numpy_concatenate var_array (Obj v); Return (Arr a)
          end, pipe))
      0 (_pipes st) (Obj VNone) in
  let st := set_pipes pipes st in
  (var_array ← r;
   v ← py_getitem (_process_data st) (VStr var_name);
   numpy_concatenate var_array (Obj v), st).



(** An (index, length) pair as the Python tuple it is. *)
Definition tuple2 (p : Z * Z) : value := VTuple [VInt p.1; VInt p.2].

Definition define_list (length : Z) (st : pool) : result unit * pool :=
  match _split 0 length (_cpu_count st) with
  | Return indices =>
      let '(r, pipes) :=
        for_pipes
          (λ i pipe (_ : unit),
             match py_index indices i with
             | Return p =>
                 (Return tt,
                  send (<["list_def" := tuple2 p]> {["op" := VStr "set_data"]}) pipe)
             | Raise e => (Raise e, pipe)
             | Blocked => (Blocked, pipe)
             end)
          0 (_pipes st) tt in
      let st := set_pipes pipes st in
      match r with
      | Return _ =>
          match py_index indices (-1) with
          | Return p =>
              (Return tt,
               set_process_data (<["list_def" := tuple2 p]> (_process_data st)) st)
          | Raise e => (Raise e, st)
          | Blocked => (Blocked, st)
          end
      | Raise e => (Raise e, st)
      | Blocked => (Blocked, st)
      end
  | Raise e => (Raise e, st)
  | Blocked => (Blocked, st)
  end.

Definition clear_all_data (st : pool) : pool :=
  let st := set_pipes (send {["op" := VStr "clear_all_data"]} <$> _pipes st) st in
  set_process_data ∅ st.

(** Every child has worked through the requests sent to it so far. *)
Definition settle (st : pool) : pool :=
  set_pipes (_message_loop <$> _pipes st) st.

End Framework.

Arguments concat_var_into_numpy_array globals {ndarray} numpy_concatenate var_name st.

(** * Notions used to state the properties *)

(** The breakpoints of the standard case as the specification words
    them, with the floor of the exact quotient. *)
Definition bp (start length num_splits i : Z) : Z :=
  start + (length * i) `div` num_splits.

(** Pairs cut at the values of [b] over [a, a + k). *)
Definition cuts (b : Z → Z) (a k : Z) : list (Z * Z) :=
  (λ i, (b i, b (i + 1) - b i)) <$> seqZ a k.


(** The ranges of [ps], in order, tile [s, e): each one starts where the
    one before ends, none has a negative length, the first starts at [s]
    and the last ends at [e]. *)
Fixpoint tiles (s : Z) (ps : list (Z * Z)) (e : Z) : Prop :=
  match ps with
  | [] => s = e
  | (o, l) :: ps' => o = s ∧ 0 ≤ l ∧ tiles (o + l) ps' e
  end.





(** The child is running and gets through the requests already sent to
    it without returning or raising. *)
Definition alive (globals : gmap string operation) (w : worker) : Prop :=
  w_status (_message_loop globals w) = Listening.

(** Moreover no reply of the child is left unread. *)
Definition ready (globals : gmap string operation) (w : worker) : Prop :=
  alive globals w ∧ w_outbox (_message_loop globals w) = [].

(** The pool was started once: [start_processes] has made one child for
    each of the [_cpu_count - 1] other participants. *)
Definition started (st : pool) : Prop :=
  1 ≤ _cpu_count st ∧ len (_pipes st) = _cpu_count st - 1.

(** A registry with a single operation, for the examples. *)
Definition demo_globals : gmap string operation :=
  {["mark" := λ request data, (<["mark" := VInt 1]> data, None)]}.

(** A pool of [n] participants started from empty stores. *)
Definition fresh_pool (n : Z) : pool := start_processes (Pool n [] ∅ ∅).

(** The store of [w], once it has taken its pending requests, holds the
    list [l] under [var_name]. *)
Definition holds (globals : gmap string operation) (var_name : string)
    (w : worker) (l : list value) : Prop :=
  w_data (_message_loop globals w) !! var_name = Some (VList l).

(** A stand-in for numpy in the examples, with lists for arrays: None,
    numbers and strings have no dimension and are rejected with
    ValueError, as numpy does; sequences are joined.  numpy's conversion
    of the items is left out, and no example depends on it. *)
Definition demo_items (a : array_like (list value)) : result (list value) :=
  match a with
  | Arr l => Return l
  | Obj (VList l) | Obj (VTuple l) => Return l
  | Obj _ => Raise ValueError
  end.

Definition demo_concatenate (a b : array_like (list value)) : result (list value) :=
  x ← demo_items a; y ← demo_items b; Return (x ++ y).

(** * Properties *)

(** ** Sequences *)

Lemma len_nonneg {A} (l : list A) : 0 ≤ len l.
Proof. unfold len. lia. Qed.

Lemma py_index_lookup {A} (l : list A) (i : nat) (x : A) :
  l !! i = Some x → py_index l (Z.of_nat i) = Return x.
Proof.
  intros H. pose proof (lookup_lt_Some _ _ _ H) as Hlt.
  unfold py_index, len.
  destruct (Z.ltb_spec (Z.of_nat i) 0); [lia|].
  destruct (Z.leb_spec 0 (Z.of_nat i)); [|lia].
  destruct (Z.ltb_spec (Z.of_nat i) (Z.of_nat (length l))); [|lia].
  simpl. by rewrite Nat2Z.id, H.
Qed.

Lemma py_index_last {A} (l : list A) (x : A) :
  py_index (l ++ [x]) (-1) = Return x.
Proof.
  unfold py_index, len. rewrite length_app. simpl.
  destruct (Z.leb_spec 0 (-1 + Z.of_nat (length l + 1))); [|lia].
  destruct (Z.ltb_spec (-1 + Z.of_nat (length l + 1)) (Z.of_nat (length l + 1))); [|lia].
  simpl. replace (Z.to_nat (-1 + Z.of_nat (length l + 1))) with (length l) by lia.
  by rewrite list_lookup_middle.
Qed.

Lemma for_in_snoc {A B} (g : A → B) (body : A → list B → result (list B)) xs acc :
  (∀ x acc, x ∈ xs → body x acc = Return (acc ++ [g x])) →
  for_in xs body acc = Return (acc ++ (g <$> xs)).
Proof.
  revert acc. induction xs as [|x xs IH]; intros acc Hbody; simpl.
  - by rewrite app_nil_r.
  - rewrite Hbody by set_solver. simpl.
    rewrite IH by (intros; apply Hbody; set_solver).
    by rewrite <- app_assoc.
Qed.

Lemma range_0 n : range 0 n = seqZ 0 n.
Proof. unfold range. f_equal. lia. Qed.

(** ** The float quotient *)

Lemma float_exponent_bounds a b :
  0 < b → b ≤ a → a < 2 ^ 53 →
  0 ≤ float_exponent a b ≤ 52 ∧ b * 2 ^ float_exponent a b ≤ a.
Proof.
  intros Hb Hba Ha. unfold float_exponent.
  pose proof (Z.log2_spec a ltac:(lia)) as [Ha1 Ha2].
  pose proof (Z.log2_spec b ltac:(lia)) as [Hb1 Hb2].
  pose proof (Z.log2_le_mono b a Hba) as Hmono.
  pose proof (Z.log2_nonneg b) as Hnb.
  assert (Z.log2 a < 53) as Hla by (apply Z.log2_lt_pow2; lia).
  set (d := Z.log2 a - Z.log2 b).
  assert (0 ≤ d ≤ 52) as Hd by (unfold d; lia).
  rewrite (Z.max_l 0 (- d)) by lia. rewrite (Z.max_r 0 d) by lia.
  rewrite Z.pow_0_r, Z.mul_1_r.
  destruct (Z.ltb_spec a (b * 2 ^ d)) as [Hlt|Hge].
  - assert (d ≠ 0) as Hd0.
    { intros Hd0. rewrite Hd0, Z.pow_0_r in Hlt. lia. }
    split; [lia|].
    assert (2 ^ Z.log2 a = 2 ^ Z.succ (Z.log2 b) * 2 ^ (d - 1)) as Hpow.
    { rewrite <- Z.pow_add_r by lia. f_equal. unfold d. lia. }
    assert (0 < 2 ^ (d - 1)) by (apply Z.pow_pos_nonneg; lia).
    nia.
  - split; [lia|done].
Qed.

Lemma round_half_even_bounds n d :
  0 < d →
  n `div` d ≤ round_half_even n d ≤ n `div` d + 1
  ∧ (round_half_even n d = n `div` d + 1 → d ≤ 2 * (n `mod` d)).
Proof.
  intros Hd. unfold round_half_even.
  destruct (Z.ltb_spec (2 * (n `mod` d)) d); [lia|].
  destruct (Z.ltb_spec d (2 * (n `mod` d))); [lia|].
  destruct (Z.even (n `div` d)); lia.
Qed.

(** Below 2^53 the float quotient loses nothing that [int] does not drop
    anyway. *)
Lemma int_truediv_exact a b :
  0 < b → b ≤ a → a < 2 ^ 53 → int_truediv a b = Return (a `div` b).
Proof.
  intros Hb Hba Ha. unfold int_truediv.
  destruct (Z.eqb_spec b 0); [lia|]. destruct (Z.eqb_spec a 0); [lia|].
  rewrite (Z.abs_eq a), (Z.abs_eq b) by lia.
  rewrite (Z.sgn_pos a), (Z.sgn_pos b) by lia.
  destruct (float_exponent_bounds a b Hb Hba Ha) as [He Hbe].
  set (e := float_exponent a b) in *.
  rewrite (Z.max_l (e - 52) (-1074)) by lia.
  set (k := 52 - e).
  replace (- (e - 52)) with k by (unfold k; lia).
  rewrite (Z.max_r 0 k) by (unfold k; lia).
  rewrite (Z.max_l 0 (e - 52)) by lia.
  rewrite Z.pow_0_r, Z.mul_1_r.
  set (m := round_half_even (a * 2 ^ k) b).
  assert (0 < 2 ^ k) as HK by (apply Z.pow_pos_nonneg; unfold k; lia).
  assert (b < 2 * 2 ^ k) as HbK.
  { assert (2 ^ 53 = 2 ^ e * (2 * 2 ^ k)) as Hpow.
    { replace (2 * 2 ^ k) with (2 ^ (k + 1))
        by (rewrite Z.pow_add_r by (unfold k; lia); lia).
      rewrite <- Z.pow_add_r by (unfold k; lia). f_equal. unfold k. lia. }
    assert (0 < 2 ^ e) by (apply Z.pow_pos_nonneg; lia).
    nia. }
  destruct (round_half_even_bounds (a * 2 ^ k) b Hb) as [[Hm1 Hm2] Hm3].
  fold m in Hm1, Hm2, Hm3.
  pose proof (Z.div_mod a b ltac:(lia)) as Hdiv.
  pose proof (Z.mod_pos_bound a b Hb) as Hmod.
  pose proof (Z.div_mod (a * 2 ^ k) b ltac:(lia)) as Hdiv'.
  pose proof (Z.mod_pos_bound (a * 2 ^ k) b Hb) as Hmod'.
  set (qa := a `div` b) in *. set (ra := a `mod` b) in *.
  set (q := (a * 2 ^ k) `div` b) in *. set (r := (a * 2 ^ k) `mod` b) in *.
  set (K := 2 ^ k) in *.
  assert (qa * K ≤ q) as Hq1 by nia.
  assert (q < (qa + 1) * K) as Hq2 by nia.
  assert (m < (qa + 1) * K) as Hm4.
  { destruct (decide (m = q + 1)) as [Hup|]; [|lia].
    specialize (Hm3 Hup).
    destruct (decide (q + 1 = (qa + 1) * K)) as [Heq|]; [|lia].
    exfalso. assert (r = b - (b - ra) * K) as Hr by nia. nia. }
  assert (m `div` K = qa) as Hres.
  { symmetry. apply (Z.div_unique_pos m K qa (m - qa * K)); lia. }
  assert (0 ≤ qa) by (unfold qa; apply Z.div_pos; lia).
  destruct (Z.leb_spec 0 (e - 52)) as [Hp|Hp].
  - assert (k = 0) as Hk0 by (unfold k; lia).
    assert (K = 1) as HK1 by (unfold K; by rewrite Hk0).
    replace (e - 52) with 0 by lia. rewrite Z.pow_0_r, Z.mul_1_r.
    assert (m < 2 ^ 1024) as Hsmall.
    { assert (2 ^ 53 < 2 ^ 1024) by (apply Z.pow_lt_mono_r; lia). nia. }
    destruct (Z.leb_spec (2 ^ 1024) m); [lia|]. simpl.
    f_equal. rewrite HK1, Z.div_1_r in Hres. lia.
  - simpl. f_equal. fold K. lia.
Qed.

Lemma int_truediv_split length n i :
  1 ≤ n → n ≤ length → length * n < 2 ^ 53 → 0 ≤ i < n →
  int_truediv (length * i) n = Return ((length * i) `div` n).
Proof.
  intros Hn Hlen Hex Hi.
  destruct (decide (i = 0)) as [->|].
  - rewrite Z.mul_0_r. unfold int_truediv.
    destruct (Z.eqb_spec n 0); [lia|]. done.
  - apply int_truediv_exact; nia.
Qed.

(** ** The partitioner *)


Lemma bp_0 start length n : bp start length n 0 = start.
Proof. unfold bp. rewrite Z.mul_0_r, Zdiv_0_l. lia. Qed.

Lemma bp_end start length n : 0 < n → bp start length n n = start + length.
Proof. intros. unfold bp. rewrite Z.div_mul by lia. done. Qed.

Lemma bp_mono start length n i j :
  0 ≤ length → 0 < n → i ≤ j → bp start length n i ≤ bp start length n j.
Proof.
  intros. unfold bp. apply Z.add_le_mono_l, Z.div_le_mono; [lia|]. nia.
Qed.

(** Between two breakpoints there is at least one unit once every
    participant can get one. *)
Lemma bp_step start length n i :
  0 < n → n ≤ length → bp start length n i + 1 ≤ bp start length n (i + 1).
Proof.
  intros. unfold bp.
  assert ((length * i) `div` n + 1 ≤ (length * (i + 1)) `div` n); [|lia].
  rewrite <- (Z.div_add _ 1 n) by lia. apply Z.div_le_mono; [lia|]. nia.
Qed.

Lemma cuts_snoc b a k :
  0 ≤ k → cuts b a (k + 1) = cuts b a k ++ [(b (a + k), b (a + k + 1) - b (a + k))].
Proof.
  intros. unfold cuts. rewrite seqZ_app, fmap_app by lia.
  rewrite (seqZ_cons (a + k) 1), (seqZ_nil _ (Z.pred 1)) by lia. done.
Qed.

Lemma split_standard start length n :
  1 ≤ n → n ≤ length → length * n < 2 ^ 53 →
  _split start length n = Return (cuts (bp start length n) 0 n).
Proof.
  intros Hn Hlen Hex. unfold _split.
  destruct (Z.geb_spec length n) as [_|]; [|lia].
  rewrite !range_0.
  set (f := bp start length n).
  rewrite (for_in_snoc f); cycle 1.
  { intros i acc Hi%elem_of_seqZ. by rewrite int_truediv_split by lia. }
  cbn [mbind result_bind app].
  assert (Hidx : ∀ i, 0 ≤ i < n → py_index (f <$> seqZ 0 n) i = Return (f i)).
  { intros i Hi. rewrite <- (Z2Nat.id i) at 1 by lia. apply py_index_lookup.
    rewrite list_lookup_fmap, lookup_seqZ_lt by lia. simpl. do 2 f_equal. lia. }
  unfold len. rewrite length_fmap, length_seqZ, Z2Nat.id by lia.
  rewrite (for_in_snoc (λ i, (f i, f (i + 1) - f i))); cycle 1.
  { intros i acc Hi%elem_of_seqZ. rewrite !Hidx by lia. done. }
  cbn [mbind result_bind app].
  assert (Hlast : py_index (f <$> seqZ 0 n) (-1) = Return (f (n - 1))).
  { replace n with ((n - 1) + 1) at 1 by lia.
    rewrite seqZ_app, fmap_app by lia. rewrite (seqZ_cons (0 + (n - 1)) 1) by lia.
    rewrite (seqZ_nil _ (Z.pred 1)) by lia. simpl. rewrite py_index_last. done. }
  rewrite Hlast. cbn [mbind result_bind].
  fold f. replace (cuts f 0 n) with (cuts f 0 ((n - 1) + 1)) by (f_equal; lia).
  rewrite (cuts_snoc f 0 (n - 1)) by lia. rewrite range_0. unfold cuts.
  replace (0 + (n - 1) + 1) with n by lia. replace (0 + (n - 1)) with (n - 1) by lia.
  replace (f n) with (start + length) by (unfold f; rewrite bp_end; lia).
  done.
Qed.

Lemma split_special_loop (e : Z) (xs : list Z) (acc : list (Z * Z)) (index : Z) :
  index ≤ e →
  fold_left
    (λ '(result, index) (_ : Z),
       if index <? e
       then (result ++ [(index, 1)], index + 1)
       else (result ++ [(index, 0)], index))
    xs (acc, index)
  = (acc ++ ((λ i, (i, 1)) <$> seqZ index (Z.min (len xs) (e - index)))
         ++ replicate (Z.to_nat (len xs - (e - index))) (e, 0),
     Z.min e (index + len xs)).
Proof.
  revert acc index. induction xs as [|x xs IH]; intros acc index Hle.
  - simpl. rewrite seqZ_nil by (unfold len; simpl; lia).
    unfold len; simpl. f_equal; [|lia].
    replace (Z.to_nat (Z.of_nat 0 - (e - index))) with 0%nat by lia.
    simpl. by rewrite app_nil_r.
  - cbn [fold_left]. pose proof (len_nonneg xs) as Hxs.
    assert (Hlen : len (x :: xs) = len xs + 1) by (unfold len; simpl; lia).
    rewrite Hlen. destruct (Z.ltb_spec index e).
    + rewrite IH by lia.
      assert (0 < (len xs + 1) `min` (e - index)) as Hpos by lia.
      rewrite (seqZ_cons index _ Hpos). rewrite fmap_cons, <- !app_assoc. simpl.
      replace (Z.pred ((len xs + 1) `min` (e - index)))
        with (len xs `min` (e - (index + 1))) by lia.
      replace (len xs + 1 - (e - index)) with (len xs - (e - (index + 1))) by lia.
      replace (Z.succ index) with (index + 1) by lia.
      f_equal. lia.
    + rewrite IH by lia. assert (index = e) as -> by lia.
      rewrite !seqZ_nil by lia. simpl.
      replace (Z.to_nat (len xs + 1 - (e - e))) with (S (Z.to_nat (len xs - (e - e)))) by lia.
      simpl. rewrite <- app_assoc. simpl. f_equal. lia.
Qed.

Lemma split_special start length n :
  0 ≤ length → length < n →
  _split start length n
  = Return (((λ i, (start + i, 1)) <$> seqZ 0 length)
            ++ replicate (Z.to_nat (n - length)) (start + length, 0)).
Proof.
  intros H0 Hlt. unfold _split.
  destruct (Z.geb_spec length n); [lia|].
  rewrite split_special_loop by lia.
  rewrite range_0. unfold len. rewrite length_seqZ, Z2Nat.id by lia.
  simpl. do 2 f_equal.
  - replace (Z.min n (start + length - start)) with length by lia.
    replace (seqZ start length) with (seqZ (start + 0) length) by (f_equal; lia).
    rewrite <- (fmap_add_seqZ start 0), <- list_fmap_compose. done.
  - f_equal. lia.
Qed.

(** ** Tilings *)

Lemma tiles_app s m e ps qs :
  tiles s ps m → tiles m qs e → tiles s (ps ++ qs) e.
Proof.
  revert s. induction ps as [|[o l] ps IH]; simpl; intros s.
  - by intros ->.
  - intros (-> & ? & ?) ?. eauto.
Qed.

Lemma tiles_cuts b a k :
  0 ≤ k → (∀ i, a ≤ i < a + k → b i ≤ b (i + 1)) →
  tiles (b a) (cuts b a k) (b (a + k)).
Proof.
  intros Hk. revert a. pattern k. apply natlike_ind; [| |done]; clear k Hk.
  - intros a _. unfold cuts. rewrite seqZ_nil by lia. simpl. f_equal. lia.
  - intros k Hk IH a Hb. unfold cuts. rewrite seqZ_cons by lia.
    rewrite Z.pred_succ. simpl. split; [done|]. split; [specialize (Hb a); lia|].
    replace (b a + (b (a + 1) - b a)) with (b (a + 1)) by lia.
    replace (a + Z.succ k) with ((a + 1) + k) by lia.
    replace (Z.succ a) with (a + 1) by lia. apply IH.
    intros i Hi. apply Hb. lia.
Qed.

Lemma tiles_empty_pairs e k : tiles e (replicate k (e, 0)) e.
Proof.
  induction k; simpl; [done|]. rewrite Z.add_0_r. done.
Qed.

Lemma tiles_le s ps e : tiles s ps e → s ≤ e.
Proof.
  revert s. induction ps as [|[o l] ps IH]; simpl; intros s.
  - lia.
  - intros (-> & ? & H%IH). lia.
Qed.


(** Splitting a tiling at one of its pairs. *)
Lemma tiles_lookup s ps e i o l :
  tiles s ps e → ps !! i = Some (o, l) →
  tiles s (take i ps) o ∧ 0 ≤ l ∧ tiles (o + l) (drop (S i) ps) e.
Proof.
  revert s i. induction ps as [|[o' l'] ps IH]; intros s i; [done|].
  simpl. intros (-> & ? & Ht). destruct i as [|i]; simpl.
  - intros [= -> ->]. done.
  - intros Hi. destruct (IH _ _ Ht Hi) as (? & ? & ?). done.
Qed.





(** What [_split] returns is a tiling, in both cases; only the standard
    case divides, and needs its quotients exact. *)
Lemma split_tiling_cases start length n :
  0 ≤ length → 1 ≤ n → (n ≤ length → length * n < 2 ^ 53) →
  ∃ res, _split start length n = Return res
         ∧ len res = n ∧ tiles start res (start + length).
Proof.
  intros H0 Hn Hex. destruct (decide (n ≤ length)).
  - eexists. split; [apply split_standard; auto|]. split.
    + unfold cuts, len. rewrite length_fmap, length_seqZ. lia.
    + rewrite <- (bp_0 start length n) at 1.
      rewrite <- (bp_end start length n) by lia.
      apply (tiles_cuts (bp start length n) 0 n); [lia|].
      intros. apply bp_mono; lia.
  - eexists. split; [apply split_special; lia|]. split.
    + unfold len. rewrite length_app, length_fmap, length_seqZ, length_replicate. lia.
    + eapply tiles_app; [|apply tiles_empty_pairs].
      replace ((λ i, (start + i, 1)) <$> seqZ 0 length)
        with (cuts (λ i, start + i) 0 length).
      * replace start with (start + 0) at 1 by lia.
        apply (tiles_cuts (λ i, start + i) 0 length); [lia|]. intros; lia.
      * unfold cuts. apply list_fmap_ext. intros _ i _. f_equal. lia.
Qed.

Lemma split_tiling start length n :
  0 ≤ length → 1 ≤ n → length * n < 2 ^ 53 →
  ∃ res, _split start length n = Return res
         ∧ len res = n ∧ tiles start res (start + length).
Proof. intros. by apply split_tiling_cases. Qed.

Example split_docstring :
  _split 10 8 4 = Return [(10, 2); (12, 2); (14, 2); (16, 2)].
Proof. reflexivity. Qed.

Example split_8_4 : _split 0 8 4 = Return [(0, 2); (2, 2); (4, 2); (6, 2)].
Proof. reflexivity. Qed.

Example split_empty_range : _split 5 0 3 = Return [(5, 0); (5, 0); (5, 0)].
Proof. reflexivity. Qed.

(** Without a participant the standard case has no last breakpoint. *)
Example split_no_splits : _split 0 5 0 = Raise IndexError.
Proof. reflexivity. Qed.

(** A quotient is taken through a double: beyond 2^53 it is rounded, and
    beyond the range of a double the division raises. *)
Example int_truediv_rounds : int_truediv (10 ^ 17) 3 = Return 33333333333333332.
Proof. vm_compute. reflexivity. Qed.

Example split_rounds :
  _split 0 (10 ^ 17) 3
  = Return [(0, 33333333333333332); (33333333333333332, 33333333333333332);
            (66666666666666664, 33333333333333336)].
Proof. vm_compute. reflexivity. Qed.




(** C2, as the specification has it, does not hold: the third breakpoint
    of split(0, 10, 4) is floor(10 * 2 / 4) = 5, not 4. *)
Lemma split_0_10_4_differs :
  _split 0 10 4 ≠ Return [(0, 2); (2, 2); (4, 3); (7, 3)].
Proof. vm_compute. discriminate. Qed.

(** C2, amended: split(0, 10, 4) returns [(0,2),(2,3),(5,2),(7,3)].  In
    the standard case, when length * num_splits < 2^53 (so that every
    float quotient is exact), pair i starts at the breakpoint
    bp[i] = start + floor(length * i / num_splits) and runs to the next
    breakpoint; the last pair runs to start + length and so absorbs the
    rounding remainder. *)
Theorem split_standard_breakpoints (start length num_splits : Z) :
  1 ≤ num_splits → num_splits ≤ length → length * num_splits < 2 ^ 53 →
  _split 0 10 4 = Return [(0, 2); (2, 3); (5, 2); (7, 3)]
  ∧ _split start length num_splits
    = Return (cuts (bp start length num_splits) 0 (num_splits - 1)
              ++ [(bp start length num_splits (num_splits - 1),
                   start + length - bp start length num_splits (num_splits - 1))]).
Proof.
  intros Hn Hlen Hex. split; [reflexivity|].
  rewrite split_standard by done. f_equal.
  replace (cuts (bp start length num_splits) 0 num_splits)
    with (cuts (bp start length num_splits) 0 ((num_splits - 1) + 1)) by (f_equal; lia).
  rewrite cuts_snoc by lia.
  replace (0 + (num_splits - 1)) with (num_splits - 1) by lia.
  replace (num_splits - 1 + 1) with num_splits by lia.
  rewrite bp_end by lia. done.
Qed.

Lemma split_standard_breakpoints_witness :
  1 ≤ 3 ∧ 3 ≤ 11 ∧ 11 * 3 < 2 ^ 53 ∧
  _split 7 11 3
  = Return (cuts (bp 7 11 3) 0 (3 - 1) ++ [(bp 7 11 3 (3 - 1), 7 + 11 - bp 7 11 3 (3 - 1))]).
Proof.
  split; [lia|]. split; [lia|]. split; [lia|].
  apply (split_standard_breakpoints 7 11 3); lia.
Defined.

(** C3: for every start, every length >= 0 and every num_splits > length,
    the first length pairs hold one unit each at the offsets start,
    start + 1, ..., and every remaining pair is empty at the offset
    start + length; split(0, 3, 4) = [(0,1),(1,1),(2,1),(3,0)]. *)
Theorem split_degenerate (start length num_splits : Z) :
  0 ≤ length → length < num_splits →
  _split start length num_splits
  = Return (((λ i, (start + i, 1)) <$> seqZ 0 length)
            ++ replicate (Z.to_nat (num_splits - length)) (start + length, 0))
  ∧ _split 0 3 4 = Return [(0, 1); (1, 1); (2, 1); (3, 0)].
Proof.
  intros H0 Hlt. split; [by apply split_special|reflexivity].
Qed.

Lemma split_degenerate_witness :
  0 ≤ 2 ∧ 2 < 5 ∧
  _split 4 2 5 = Return [(4, 1); (5, 1); (6, 0); (6, 0); (6, 0)].
Proof.
  split; [lia|]. split; [lia|].
  destruct (split_degenerate 4 2 5) as [H _]; [lia|lia|]. exact H.
Defined.

(** ** The message loop *)

Section Worker.

Variable globals : gmap string operation.

Lemma step_set_inbox request l w :
  step globals request (set_inbox l w) = set_inbox l (step globals request w).
Proof.
  destruct w. unfold step. simpl. repeat case_match; simplify_eq; done.
Qed.

Lemma set_inbox_set_inbox l l' w : set_inbox l (set_inbox l' w) = set_inbox l w.
Proof. done. Qed.

Lemma set_inbox_id w : set_inbox (w_inbox w) w = w.
Proof. by destruct w. Qed.

Lemma serve_set_inbox l w inbox :
  serve globals (set_inbox l w) inbox = serve globals w inbox.
Proof.
  revert w. induction inbox as [|request rest IH]; intros w; simpl; [done|].
  destruct (w_status w); try done. by rewrite step_set_inbox, IH.
Qed.

Lemma serve_listening_inbox w inbox :
  w_status (serve globals w inbox) = Listening → w_inbox (serve globals w inbox) = [].
Proof.
  revert w. induction inbox as [|request rest IH]; intros w; simpl; [done|].
  destruct (w_status w) eqn:Hs; simpl; rewrite ?Hs; try done. apply IH.
Qed.

Lemma serve_app w l1 l2 :
  w_status (serve globals w l1) = Listening →
  serve globals w (l1 ++ l2) = serve globals (serve globals w l1) l2.
Proof.
  revert w. induction l1 as [|request rest IH]; intros w; simpl.
  - intros _. by rewrite serve_set_inbox.
  - destruct (w_status w) eqn:Hs; simpl; rewrite ?Hs; try done. apply IH.
Qed.

Lemma message_loop_idle w :
  w_inbox w = [] → _message_loop globals w = w.
Proof.
  intros H. unfold _message_loop. rewrite H. simpl. rewrite <- H. apply set_inbox_id.
Qed.

(** A child that is alive takes a further request once it has worked
    through the earlier ones. *)
Lemma message_loop_send request w :
  alive globals w →
  _message_loop globals (send request w)
  = step globals request (_message_loop globals w).
Proof.
  unfold alive, _message_loop, send. intros Hw. simpl.
  rewrite serve_set_inbox, serve_app by done. simpl. rewrite Hw.
  rewrite <- step_set_inbox. f_equal.
  rewrite <- (serve_listening_inbox _ _ Hw). apply set_inbox_id.
Qed.


Lemma step_set_data request w :
  request !! "op" = Some (VStr "set_data") →
  step globals request w = set_data (delete "op" request ∪ w_data w) w.
Proof. unfold step. by intros ->. Qed.

Lemma step_get_var request var_name v w :
  request !! "op" = Some (VStr "get_var") →
  request !! "var_name" = Some (VStr var_name) →
  w_data w !! var_name = Some v →
  step globals request w = set_outbox (w_outbox w ++ [v]) w.
Proof. unfold step. intros -> -> H. simpl. by rewrite H. Qed.

Lemma step_get_var_missing request var_name w :
  request !! "op" = Some (VStr "get_var") →
  request !! "var_name" = Some (VStr var_name) →
  w_data w !! var_name = None →
  step globals request w = set_status (Crashed (KeyError (VStr var_name))) w.
Proof. unfold step. intros -> -> H. simpl. by rewrite H. Qed.

Lemma step_run_unknown request function_name w :
  request !! "op" = Some (VStr "run_function") →
  request !! "op_name" = Some (VStr function_name) →
  globals !! function_name = None →
  step globals request w
  = print [VStr "op_name:"; VStr function_name]
      (print [VStr "Unhandled operation:"; VStr "run_function"] w).
Proof. unfold step. intros -> -> H. by rewrite H. Qed.





End Worker.


Example loop_get_var_missing :
  w_status (_message_loop ∅ (Worker ∅ [get_var "x"] [] [] Listening))
  = Crashed (KeyError (VStr "x")).
Proof. reflexivity. Qed.

Example loop_no_discriminant :
  w_status (_message_loop ∅ (Worker ∅ [{["x" := VInt 5]}] [] [] Listening))
  = Crashed (KeyError (VStr "op")).
Proof. reflexivity. Qed.



(** ** Starting the pool *)

Lemma start_processes_loop (xs : list Z) (st : pool) :
  fold_left
    (λ st (_ : Z),
       set_pipes (_pipes st ++ [Worker (_process_data st) [] [] [] Listening]) st)
    xs st
  = set_pipes
      (_pipes st ++ replicate (length xs) (Worker (_process_data st) [] [] [] Listening))
      st.
Proof.
  revert st. induction xs as [|x xs IH]; intros st; simpl.
  - rewrite app_nil_r. by destruct st.
  - rewrite IH. simpl. by rewrite <- app_assoc.
Qed.

(** [start_processes], called once on a machine with [_cpu_count]
    processors, leaves [_cpu_count - 1] children, each of them ready. *)
Lemma start_processes_started (globals : gmap string operation) (st : pool) :
  1 ≤ _cpu_count st → _pipes st = [] →
  started (start_processes st)
  ∧ Forall (ready globals) (_pipes (start_processes st))
  ∧ _process_data (start_processes st) = _process_data st.
Proof.
  intros Hn Hp. unfold start_processes. rewrite start_processes_loop, Hp.
  rewrite range_0, length_seqZ. simpl. split_and!; [| |done].
  - split; [done|]. simpl. unfold len. rewrite length_replicate. lia.
  - apply Forall_replicate. by split.
Qed.

Example fresh_pool_4 :
  _pipes (fresh_pool 4) = replicate 3 (Worker ∅ [] [] [] Listening).
Proof. reflexivity. Qed.

(** ** Broadcast and dispatch *)

Section Coordinator.

Variable globals : gmap string operation.

Lemma object_lookup st r d : heap st !! r = Some d → object st r = d.
Proof. unfold object. by intros ->. Qed.

Lemma object_set_object st r d : object (set_object r d st) r = d.
Proof. unfold object. simpl. by rewrite lookup_insert_eq. Qed.

Lemma object_set_pipes st ws r : object (set_pipes ws st) r = object st r.
Proof. done. Qed.

Lemma set_object_twice st r d d' :
  set_object r d (set_object r d' st) = set_object r d st.
Proof. unfold set_object. simpl. by rewrite insert_insert_eq. Qed.

(** What [send_same_data] leaves behind. *)
Lemma send_same_data_eq st data_dict entries :
  heap st !! data_dict = Some entries →
  send_same_data data_dict st
  = Pool (_cpu_count st)
      (send (<["op" := VStr "set_data"]> entries) <$> _pipes st)
      (entries ∪ _process_data st)
      (<[data_dict := <["op" := VStr "set_data"]> entries]> (heap st)).
Proof.
  intros H. unfold send_same_data. rewrite !object_set_object.
  unfold object. simpl. by rewrite H.
Qed.

(** What [run_function] does once its guard lets the call through. *)
Lemma run_function_eq function_name st arg_dict args :
  heap st !! arg_dict = Some args →
  args !! "op" = None → args !! "op_name" = None →
  let request :=
    <["op_name" := VStr function_name]> (<["op" := VStr "run_function"]> args) in
  let st' := set_pipes (send request <$> _pipes st) (set_object arg_dict request st) in
  run_function globals function_name (Some arg_dict) st
  = match globals !! function_name with
    | None => (Raise (KeyError (VStr function_name)), st')
    | Some f =>
        match f request (_process_data st) with
        | (d, None) => (Return tt, set_process_data d st')
        | (d, Some msg) => (Raise (OpRaised msg), set_process_data d st')
        end
    end.
Proof.
  intros H Hop Hname. unfold run_function.
  rewrite (object_lookup _ _ _ H), Hop, Hname. simpl.
  rewrite !object_set_object, set_object_twice.
  rewrite object_set_pipes, object_set_object. done.
Qed.

Lemma run_function_guard function_name st arg_dict args :
  heap st !! arg_dict = Some args →
  is_Some (args !! "op") ∨ is_Some (args !! "op_name") →
  run_function globals function_name (Some arg_dict) st = (Raise ReservedKey, st).
Proof.
  intros H Hkeys. unfold run_function. rewrite (object_lookup _ _ _ H).
  destruct Hkeys as [[? ->]|[? ->]]; simpl; [done|].
  by rewrite orb_true_r.
Qed.

(** A request for an operation the namespace lacks is logged and ignored
    by a child. *)
Lemma message_loop_run_unknown request function_name w :
  alive globals w →
  request !! "op" = Some (VStr "run_function") →
  request !! "op_name" = Some (VStr function_name) →
  globals !! function_name = None →
  _message_loop globals (send request w)
  = print [VStr "op_name:"; VStr function_name]
      (print [VStr "Unhandled operation:"; VStr "run_function"]
         (_message_loop globals w)).
Proof.
  intros Hw Hop Hname Hg. rewrite message_loop_send by done.
  by apply step_run_unknown.
Qed.

Lemma message_loop_set_data request w :
  alive globals w →
  request !! "op" = Some (VStr "set_data") →
  _message_loop globals (send request w)
  = set_data (delete "op" request ∪ w_data (_message_loop globals w))
      (_message_loop globals w).
Proof.
  intros Hw Hop. rewrite message_loop_send by done. by apply step_set_data.
Qed.

End Coordinator.

(** C5: when the argument map holds the key "op" or the key "op_name",
    [run_function] raises its reserved-key exception and the whole state
    (every pipe, every store, the caller's map) is as before: nothing was
    sent.  When the map holds neither key, or is None, that exception is
    not raised. *)
Theorem run_function_reserved_keys (globals : gmap string operation)
    (function_name : string) (st : pool) (arg_dict : positive) (args : dict) :
  heap st !! arg_dict = Some args →
  (is_Some (args !! "op") ∨ is_Some (args !! "op_name") →
     run_function globals function_name (Some arg_dict) st = (Raise ReservedKey, st))
  ∧ (args !! "op" = None → args !! "op_name" = None →
     (run_function globals function_name (Some arg_dict) st).1 ≠ Raise ReservedKey)
  ∧ (run_function globals function_name None st).1 ≠ Raise ReservedKey.
Proof.
  intros H. split_and!.
  - by apply run_function_guard.
  - intros Hop Hname. rewrite (run_function_eq _ _ _ _ _ H Hop Hname).
    repeat case_match; simpl; done.
  - unfold run_function. rewrite !object_set_object. simpl.
    repeat case_match; simpl; done.
Qed.

Lemma run_function_reserved_keys_witness :
  let st := set_object 1%positive {["op" := VStr "x"]} (fresh_pool 3) in
  heap st !! 1%positive = Some {["op" := VStr "x"]}
  ∧ run_function demo_globals "f" (Some 1%positive) st = (Raise ReservedKey, st).
Proof.
  split; [reflexivity|].
  apply (run_function_reserved_keys demo_globals "f" _ 1%positive {["op" := VStr "x"]});
    [reflexivity|]. left. by eexists.
Defined.

Example run_function_op_name_key :
  let st := set_object 1%positive {["op_name" := VStr "x"]} (fresh_pool 3) in
  run_function demo_globals "f" (Some 1%positive) st = (Raise ReservedKey, st).
Proof. reflexivity. Qed.

(** C6 fails on the code: for an operation name the global namespace
    lacks, [run_function] sends the request to every child and then raises
    KeyError in the main process, at [globals()[function_name]].  The
    children, which test [op_name in globals()] first, log the request and
    go on listening. *)
Theorem run_function_unknown_raises (globals : gmap string operation)
    (function_name : string) (st : pool) (arg_dict : positive) (args : dict) :
  heap st !! arg_dict = Some args →
  args !! "op" = None → args !! "op_name" = None →
  globals !! function_name = None →
  let request :=
    <["op_name" := VStr function_name]> (<["op" := VStr "run_function"]> args) in
  run_function globals function_name (Some arg_dict) st
  = (Raise (KeyError (VStr function_name)),
     set_pipes (send request <$> _pipes st) (set_object arg_dict request st))
  ∧ ∀ w, w ∈ _pipes st → alive globals w →
      _message_loop globals (send request w)
      = print [VStr "op_name:"; VStr function_name]
          (print [VStr "Unhandled operation:"; VStr "run_function"]
             (_message_loop globals w)).
Proof.
  intros H Hop Hname Hg request. split.
  - rewrite (run_function_eq _ _ _ _ _ H Hop Hname). by rewrite Hg.
  - intros w _ Hw. apply message_loop_run_unknown; [done| | |done].
    + unfold request. by rewrite lookup_insert_ne, lookup_insert_eq.
    + unfold request. by rewrite lookup_insert_eq.
Qed.

Lemma run_function_unknown_raises_witness :
  let st := set_object 1%positive ∅ (fresh_pool 2) in
  heap st !! 1%positive = Some ∅
  ∧ (run_function demo_globals "doesNotExist" (Some 1%positive) st).1
    = Raise (KeyError (VStr "doesNotExist")).
Proof.
  split; [reflexivity|].
  destruct (run_function_unknown_raises demo_globals "doesNotExist"
              (set_object 1%positive ∅ (fresh_pool 2)) 1%positive ∅) as [H _];
    [reflexivity..|].
  by rewrite H.
Defined.

(** C10: the caller's map is the request.  After [send_same_data] it
    holds "op" := "set_data"; after a [run_function] call that passed the
    guard it holds "op" := "run_function" and "op_name" := the name, so a
    second call with the same map raises the reserved-key exception. *)
Theorem caller_map_is_the_request (globals : gmap string operation)
    (function_name : string) (st : pool) (r : positive) (d : dict) :
  heap st !! r = Some d →
  heap (send_same_data r st) !! r = Some (<["op" := VStr "set_data"]> d)
  ∧ (d !! "op" = None → d !! "op_name" = None →
     let st' := (run_function globals function_name (Some r) st).2 in
     heap st' !! r
     = Some (<["op_name" := VStr function_name]> (<["op" := VStr "run_function"]> d))
     ∧ ∀ again, run_function globals again (Some r) st' = (Raise ReservedKey, st')).
Proof.
  intros H. split.
  - rewrite (send_same_data_eq _ _ _ H). simpl. by rewrite lookup_insert_eq.
  - intros Hop Hname st'.
    assert (heap st' !! r
            = Some (<["op_name" := VStr function_name]>
                      (<["op" := VStr "run_function"]> d))) as Hst'.
    { unfold st'. rewrite (run_function_eq _ _ _ _ _ H Hop Hname).
      repeat case_match; simpl; by rewrite lookup_insert_eq. }
    split; [done|]. intros again. eapply run_function_guard; [done|].
    right. by rewrite lookup_insert_eq.
Qed.

Lemma caller_map_is_the_request_witness :
  let st := set_object 1%positive {["x" := VInt 5]} (fresh_pool 3) in
  heap st !! 1%positive = Some {["x" := VInt 5]}
  ∧ heap (send_same_data 1%positive st) !! 1%positive
    = Some (<["op" := VStr "set_data"]> {["x" := VInt 5]}).
Proof.
  split; [reflexivity|].
  apply (caller_map_is_the_request demo_globals "mark" _ 1%positive {["x" := VInt 5]}).
  reflexivity.
Defined.

Example run_function_twice :
  let st := set_object 1%positive {["x" := VInt 5]} (fresh_pool 3) in
  let st' := (run_function demo_globals "mark" (Some 1%positive) st).2 in
  (run_function demo_globals "mark" (Some 1%positive) st).1 = Return tt
  ∧ _process_data st' !! "mark" = Some (VInt 1)
  ∧ run_function demo_globals "mark" (Some 1%positive) st' = (Raise ReservedKey, st').
Proof. by vm_compute. Qed.

(** C8, as stated, does not hold: a store that held the key "op" before
    the call holds it afterwards.  Broadcasting one dict object twice
    copies the injected discriminant into main's store, and a later
    broadcast of entries without "op" leaves it there. *)
Lemma send_same_data_keeps_old_op :
  let st := set_object 2%positive {["x" := VInt 5]}
              (send_same_data 1%positive
                 (send_same_data 1%positive
                    (set_object 1%positive {["y" := VInt 1]} (fresh_pool 2)))) in
  let st' := settle demo_globals (send_same_data 2%positive st) in
  heap st !! 2%positive = Some {["x" := VInt 5]}
  ∧ ({["x" := VInt 5]} : dict) !! "op" = None
  ∧ _process_data st' !! "x" = Some (VInt 5)
  ∧ _process_data st' !! "op" = Some (VStr "set_data").
Proof. by vm_compute. Qed.

(** C8, amended: when the entries map has no key "op" and every child is
    alive, then after [send_same_data], once every child has taken the
    request, the store of every participant (main's and each child's) maps
    each entry key to its value; and if no store held a key "op" before,
    none holds one after. *)
Theorem send_same_data_broadcast (globals : gmap string operation)
    (st : pool) (data_dict : positive) (entries : dict) :
  heap st !! data_dict = Some entries →
  entries !! "op" = None →
  Forall (alive globals) (_pipes st) →
  let st' := settle globals (send_same_data data_dict st) in
  length (_pipes st') = length (_pipes st)
  ∧ Forall (λ w, w_status w = Listening) (_pipes st')
  ∧ (∀ key v, entries !! key = Some v →
       _process_data st' !! key = Some v
       ∧ Forall (λ w, w_data w !! key = Some v) (_pipes st'))
  ∧ (_process_data st !! "op" = None →
     Forall (λ w, w_data w !! "op" = None) (_pipes (settle globals st)) →
     _process_data st' !! "op" = None
     ∧ Forall (λ w, w_data w !! "op" = None) (_pipes st')).
Proof.
  intros H Hop Halive st'. unfold st'.
  rewrite (send_same_data_eq _ _ _ H). unfold settle. simpl.
  assert (Hw : ∀ w, alive globals w →
            _message_loop globals (send (<["op" := VStr "set_data"]> entries) w)
            = set_data (entries ∪ w_data (_message_loop globals w))
                (_message_loop globals w)).
  { intros w Hw. rewrite message_loop_set_data by (done || by rewrite lookup_insert_eq).
    by rewrite delete_insert_id. }
  split_and!.
  - by rewrite !length_fmap.
  - rewrite !Forall_fmap. eapply Forall_impl; [exact Halive|].
    intros w Hal. simpl. by rewrite Hw.
  - intros key v Hkey. split; [by apply lookup_union_Some_l|].
    rewrite !Forall_fmap. eapply Forall_impl; [exact Halive|].
    intros w Hal. simpl. rewrite Hw by done. simpl. by apply lookup_union_Some_l.
  - intros Hmain Hchildren. split.
    + by rewrite lookup_union_r.
    + rewrite !Forall_fmap. rewrite Forall_fmap in Hchildren.
      eapply Forall_impl; [apply Forall_and; split; [exact Halive|exact Hchildren]|].
      intros w [Hal Hc]. simpl in *. rewrite Hw by done. simpl.
      by rewrite lookup_union_r.
Qed.

Lemma send_same_data_broadcast_witness :
  let st := set_object 1%positive {["x" := VInt 5]} (fresh_pool 3) in
  let st' := settle demo_globals (send_same_data 1%positive st) in
  heap st !! 1%positive = Some {["x" := VInt 5]}
  ∧ ({["x" := VInt 5]} : dict) !! "op" = None
  ∧ Forall (alive demo_globals) (_pipes st)
  ∧ _process_data st' !! "x" = Some (VInt 5)
  ∧ Forall (λ w, w_data w !! "x" = Some (VInt 5)) (_pipes st').
Proof.
  assert (Forall (alive demo_globals)
            (_pipes (set_object 1%positive {["x" := VInt 5]} (fresh_pool 3)))) as Hal.
  { repeat constructor. }
  split; [reflexivity|]. split; [reflexivity|]. split; [exact Hal|].
  destruct (send_same_data_broadcast demo_globals
              (set_object 1%positive {["x" := VInt 5]} (fresh_pool 3))
              1%positive {["x" := VInt 5]})
    as (_ & _ & Hx & _); [reflexivity|reflexivity|exact Hal|].
  apply (Hx "x" (VInt 5)). reflexivity.
Defined.

Example send_same_data_x_5 :
  let st := set_object 1%positive {["x" := VInt 5]} (fresh_pool 3) in
  let st' := settle demo_globals (send_same_data 1%positive st) in
  _process_data st' = {["x" := VInt 5]}
  ∧ w_data <$> _pipes st' = [{["x" := VInt 5]}; {["x" := VInt 5]}].
Proof. by vm_compute. Qed.

(** An entries map that does hold "op" leaves that key in main's store. *)
Example send_same_data_with_op :
  let st := set_object 1%positive {["op" := VInt 5]} (fresh_pool 3) in
  _process_data (send_same_data 1%positive st) !! "op" = Some (VInt 5).
Proof. reflexivity. Qed.

(** ** Gathering *)

Section Gather.

Variable globals : gmap string operation.

Lemma set_outbox_id w : set_outbox (w_outbox w) w = w.
Proof. by destruct w. Qed.

Lemma get_var_op var_name : get_var var_name !! "op" = Some (VStr "get_var").
Proof. done. Qed.

Lemma get_var_name var_name : get_var var_name !! "var_name" = Some (VStr var_name).
Proof. unfold get_var. by rewrite lookup_insert_eq. Qed.

(** A ready child answers get_var with the value it holds, and is ready
    again afterwards. *)
Lemma recv_get_var var_name w v :
  ready globals w →
  w_data (_message_loop globals w) !! var_name = Some v →
  recv globals (send (get_var var_name) w) = (Return v, _message_loop globals w).
Proof.
  intros [Hal Hout] Hv. unfold recv.
  rewrite message_loop_send by done.
  rewrite (step_get_var _ _ var_name v)
    by (done || apply get_var_op || apply get_var_name).
  rewrite Hout. simpl. f_equal.
  transitivity (set_outbox (w_outbox (_message_loop globals w)) (_message_loop globals w));
    [by rewrite Hout | apply set_outbox_id].
Qed.

Lemma message_loop_twice w :
  alive globals w → _message_loop globals (_message_loop globals w) = _message_loop globals w.
Proof.
  intros Hal. apply message_loop_idle. by apply serve_listening_inbox.
Qed.

(** The receive loop of [concat_var_into_list]: replies are taken in
    pool order and appended in that order. *)
Lemma gather_list var_name ws ls :
  Forall2 (λ w l, ready globals w ∧ holds globals var_name w l) ws ls →
  ∀ i var_list,
    for_pipes
      (λ _ pipe var_list,
         let '(reply, pipe) := recv globals pipe in
         (v ← reply; extend var_list v, pipe))
      i (send (get_var var_name) <$> ws) var_list
    = (Return (var_list ++ concat ls), _message_loop globals <$> ws).
Proof.
  induction 1 as [|w l ws ls [Hr Hv] _ IH]; intros i var_list; simpl.
  - by rewrite app_nil_r.
  - rewrite (recv_get_var _ _ (VList l)) by done. simpl.
    rewrite IH. by rewrite <- app_assoc.
Qed.

Lemma set_pipes_id st : set_pipes (_pipes st) st = st.
Proof. by destruct st. Qed.

(** Aggregation order of [concat_var_into_list]: child 0, child 1, ...,
    child K-1, then main. *)
Lemma concat_var_into_list_order var_name st ls lm :
  Forall2 (λ w l, ready globals w ∧ holds globals var_name w l) (_pipes st) ls →
  _process_data st !! var_name = Some (VList lm) →
  concat_var_into_list globals var_name st
  = (Return (concat ls ++ lm), settle globals st).
Proof.
  intros Hws Hv. unfold concat_var_into_list. simpl.
  rewrite (gather_list _ _ _ Hws). simpl. by rewrite Hv.
Qed.

End Gather.

Example concat_order :
  let st :=
    Pool 3 [Worker {["v" := VList [VInt 1; VInt 2]]} [] [] [] Listening;
            Worker {["v" := VList [VInt 3]]} [] [] [] Listening]
      {["v" := VList [VInt 4; VInt 5]]} ∅ in
  (concat_var_into_list demo_globals "v" st).1
  = Return [VInt 1; VInt 2; VInt 3; VInt 4; VInt 5]
  ∧ (concat_var_into_numpy_array demo_globals demo_concatenate "v" st).1
    = Return [VInt 1; VInt 2; VInt 3; VInt 4; VInt 5].
Proof. by vm_compute. Qed.

(** C9 fails on the code when the pool has no child (K = 0, a machine
    with one processor) and main holds a list: [concat_var_into_list]
    returns main's own items, but [concat_var_into_numpy_array] reaches
    its last line with [var_array] still None and hands None to
    [numpy.concatenate] as the first array, which raises ValueError, as
    it does for any object without a dimension. *)
Theorem concat_numpy_without_children (globals : gmap string operation)
    (ndarray : Type)
    (numpy_concatenate : array_like ndarray → array_like ndarray → result ndarray)
    (var_name : string) (st : pool) (l : list value) :
  _pipes st = [] →
  _process_data st !! var_name = Some (VList l) →
  (∀ a, numpy_concatenate (Obj VNone) a = Raise ValueError) →
  concat_var_into_list globals var_name st = (Return l, st)
  ∧ concat_var_into_numpy_array globals numpy_concatenate var_name st
    = (numpy_concatenate (Obj VNone) (Obj (VList l)), st)
  ∧ concat_var_into_numpy_array globals numpy_concatenate var_name st
    = (Raise ValueError, st).
Proof.
  intros Hp Hv Hnone.
  assert (set_pipes [] (set_pipes [] st) = st) as Hst.
  { destruct st; simpl in *. by subst. }
  assert (concat_var_into_numpy_array globals numpy_concatenate var_name st
          = (numpy_concatenate (Obj VNone) (Obj (VList l)), st)) as Hnumpy.
  { unfold concat_var_into_numpy_array. rewrite Hp. simpl. rewrite Hv. simpl.
    by rewrite Hst. }
  split_and!.
  - unfold concat_var_into_list. rewrite Hp. simpl. rewrite Hv. simpl.
    by rewrite Hst.
  - exact Hnumpy.
  - by rewrite Hnumpy, Hnone.
Qed.

Lemma concat_numpy_without_children_witness :
  let st := set_process_data {["v" := VList [VInt 1; VInt 2]]} (fresh_pool 1) in
  _pipes st = []
  ∧ _process_data st !! "v" = Some (VList [VInt 1; VInt 2])
  ∧ (∀ a, demo_concatenate (Obj VNone) a = Raise ValueError)
  ∧ concat_var_into_list demo_globals "v" st = (Return [VInt 1; VInt 2], st)
  ∧ concat_var_into_numpy_array demo_globals demo_concatenate "v" st
    = (Raise ValueError, st).
Proof.
  split; [reflexivity|]. split; [reflexivity|]. split; [reflexivity|].
  destruct (concat_numpy_without_children demo_globals (list value) demo_concatenate
              "v" (set_process_data {["v" := VList [VInt 1; VInt 2]]} (fresh_pool 1))
              [VInt 1; VInt 2]) as (Hl & _ & Hn);
    [reflexivity|reflexivity|reflexivity|].
  split; [exact Hl|exact Hn].
Defined.

(** ** Scattering *)

Section Scatter.

Variable globals : gmap string operation.

Lemma ready_send_set_data var_name (sl : list value) w :
  var_name ≠ "op" → ready globals w →
  let request := <[var_name := VList sl]> {["op" := VStr "set_data"]} in
  ready globals (send request w) ∧ holds globals var_name (send request w) sl.
Proof.
  intros Hne [Hal Hout] request.
  assert (request !! "op" = Some (VStr "set_data")) as Hop.
  { unfold request. by rewrite lookup_insert_ne, lookup_singleton_eq. }
  unfold ready, alive, holds.
  rewrite (message_loop_set_data _ _ _ Hal Hop). simpl.
  split; [done|].
  apply lookup_union_Some_l. rewrite lookup_delete_ne by done.
  unfold request. by rewrite lookup_insert_eq.
Qed.

(** The send loop of [split_list_and_send], when each child in turn has
    a pair with a positive length. *)
Lemma scatter (data_list : list value) var_name (ps : list (Z * Z)) ws :
  var_name ≠ "op" →
  ∀ k : nat,
    Forall (ready globals) ws →
    (∀ j, (j < length ws)%nat → ∃ o l, ps !! (k + j)%nat = Some (o, l) ∧ 0 < l) →
    ∃ ws',
      for_pipes
        (λ i pipe (_ : unit),
           match py_index ps i with
           | Return (index, length) =>
               (Return tt,
                if length >? 0 then
                  send (<[var_name := VList (py_slice data_list index (index + length))]>
                          {["op" := VStr "set_data"]}) pipe
                else pipe)
           | Raise e => (Raise e, pipe)
           | Blocked => (Blocked, pipe)
           end)
        (Z.of_nat k) ws tt
      = (Return tt, ws')
      ∧ Forall2 (λ w' l, ready globals w' ∧ holds globals var_name w' l) ws'
          ((λ p, py_slice data_list p.1 (p.1 + p.2)) <$> take (length ws) (drop k ps)).
Proof.
  intros Hne. induction ws as [|w ws IH]; intros k Hready Hpos.
  - exists []. split; [done|]. simpl. constructor.
  - destruct (Hpos 0%nat) as (o & l & Hk & Hl); [simpl; lia|].
    rewrite Nat.add_0_r in Hk.
    inversion Hready as [|? ? Hw Hws]; subst.
    destruct (IH (S k) Hws) as (ws' & Hfor & Hall).
    { intros j Hj. destruct (Hpos (S j)) as (o' & l' & ? & ?); [simpl; lia|].
      exists o', l'. split; [|done]. rewrite <- H. f_equal. lia. }
    cbn [for_pipes]. rewrite (py_index_lookup _ _ _ Hk).
    destruct (Z.gtb_spec l 0) as [_|]; [|lia].
    replace (Z.of_nat k + 1) with (Z.of_nat (S k)) by lia.
    rewrite Hfor. eexists. split; [done|].
    rewrite (drop_S _ _ _ Hk). cbn [length take fmap list_fmap].
    constructor; [|done]. simpl. by apply ready_send_set_data.
Qed.

(** The slices of a list along a tiling make up the tiled part. *)
Lemma tiles_slices (data_list : list value) s ps e :
  tiles s ps e → 0 ≤ s → e ≤ len data_list →
  concat ((λ p, py_slice data_list p.1 (p.1 + p.2)) <$> ps)
  = take (Z.to_nat (e - s)) (drop (Z.to_nat s) data_list).
Proof.
  revert s. induction ps as [|[o l] ps IH]; cbn [tiles]; intros s.
  - intros -> _ _. by rewrite Z.sub_diag.
  - intros (-> & Hl & Ht) Hs He. pose proof (tiles_le _ _ _ Ht).
    rewrite fmap_cons. cbn [concat fst snd]. rewrite (IH _ Ht) by lia.
    unfold py_slice, clip.
    destruct (Z.ltb_spec s 0); [lia|]. destruct (Z.ltb_spec (s + l) 0); [lia|].
    replace (Z.to_nat (Z.min (Z.max s 0) (len data_list))) with (Z.to_nat s) by lia.
    replace (Z.to_nat (Z.min (Z.max (s + l) 0) (len data_list)) - Z.to_nat s)%nat
      with (Z.to_nat l) by lia.
    replace (Z.to_nat (s + l)) with (Z.to_nat s + Z.to_nat l)%nat by lia.
    rewrite <- drop_drop, take_take_drop. f_equal. lia.
Qed.

(** [split_list_and_send] does nothing when the partitioner raises. *)
Lemma split_list_and_send_raises (data_list : list value) var_name st e :
  _split 0 (len data_list) (_cpu_count st) = Raise e →
  split_list_and_send data_list var_name st = (Raise e, st).
Proof. intros H. unfold split_list_and_send. by rewrite H. Qed.

Lemma len_replicate {A} (n : Z) (x : A) : 0 ≤ n → len (replicate (Z.to_nat n) x) = n.
Proof. intros. unfold len. rewrite length_replicate. lia. Qed.

(** Every child gets at least one item once there are as many items as
    children. *)
Lemma split_positive length n ps j o l :
  1 ≤ n → n - 1 ≤ length → length * n < 2 ^ 53 →
  _split 0 length n = Return ps →
  ps !! j = Some (o, l) → Z.of_nat j < n - 1 → 0 < l.
Proof.
  intros Hn Hlen Hex Hsplit Hj Hlt. destruct (decide (n ≤ length)).
  - rewrite split_standard in Hsplit by done. injection Hsplit as <-.
    unfold cuts in Hj. rewrite list_lookup_fmap in Hj.
    destruct (seqZ 0 n !! j) as [i|] eqn:Hi; [|done].
    injection Hj as <- <-. pose proof (bp_step 0 length n i). lia.
  - rewrite split_special in Hsplit by lia. injection Hsplit as <-.
    rewrite lookup_app_l in Hj by (rewrite length_fmap, length_seqZ; lia).
    rewrite list_lookup_fmap in Hj.
    destruct (seqZ 0 length !! j); [|done]. by injection Hj as <- <-.
Qed.

End Scatter.

(** C4, as stated, does not hold: with three children and a one-item
    list, children 1 and 2 have an empty share and are sent nothing; the
    get_var request then ends child 1 with KeyError and main's [recv]
    fails. *)
Lemma round_trip_short_list :
  let st := (split_list_and_send [VInt 7] "v" (fresh_pool 4)).2 in
  (concat_var_into_list demo_globals "v" st).1 = Raise EOFError
  ∧ (concat_var_into_list demo_globals "v" st).1 ≠ Return [VInt 7].
Proof. split; [by vm_compute|]. vm_compute. discriminate. Qed.

(** The name "op" is taken by the discriminant of the request that
    carries the slice. *)
Example round_trip_named_op :
  let data_list := VInt <$> [1; 2; 3; 4; 5; 6] in
  let st := (split_list_and_send data_list "op" (fresh_pool 4)).2 in
  (concat_var_into_list demo_globals "op" st).1 = Raise EOFError.
Proof. by vm_compute. Qed.

(** A list whose length a double cannot hold is not scattered at all:
    the partitioner's float division raises before anything is sent. *)
Example scatter_unrepresentable_length :
  let data_list := replicate (Z.to_nat (10 ^ 309)) VNone in
  split_list_and_send data_list "v" (fresh_pool 2) = (Raise OverflowError, fresh_pool 2).
Proof.
  apply split_list_and_send_raises.
  rewrite len_replicate by (apply Z.pow_nonneg; lia).
  change (_cpu_count (fresh_pool 2)) with 2. by vm_compute.
Qed.

(** C4, amended: in a pool started once whose children are ready, for
    every variable name other than "op" and every list with at least as
    many items as there are children, and with
    length * participants < 2^53 (so that the partitioner's float
    quotients are exact), [split_list_and_send] followed by
    [concat_var_into_list] under the same name returns the list, item for
    item in the original order. *)
Theorem scatter_gather_round_trip (globals : gmap string operation)
    (data_list : list value) (var_name : string) (st : pool) :
  started st →
  Forall (ready globals) (_pipes st) →
  var_name ≠ "op" →
  _cpu_count st - 1 ≤ len data_list →
  len data_list * _cpu_count st < 2 ^ 53 →
  (split_list_and_send data_list var_name st).1 = Return tt
  ∧ (concat_var_into_list globals var_name
       (split_list_and_send data_list var_name st).2).1 = Return data_list.
Proof.
  intros [Hn HK] Hready Hne Hlen Hex.
  destruct (split_tiling 0 (len data_list) (_cpu_count st) (len_nonneg _) Hn Hex)
    as (ps & Hsplit & Hps & Ht).
  set (K := length (_pipes st)).
  assert (length ps = S K) as HpsK by (unfold len in *; lia).
  destruct (lookup_lt_is_Some_2 ps K) as [[o l] Hlast]; [lia|].
  destruct (tiles_lookup _ _ _ _ _ _ Ht Hlast) as (Hinit & Hl & Hrest).
  apply tiles_le in Hrest. pose proof (tiles_le _ _ _ Hinit) as Ho.
  destruct (scatter globals data_list var_name ps (_pipes st) Hne 0 Hready)
    as (ws' & Hfor & Hall).
  { intros j Hj. destruct (lookup_lt_is_Some_2 ps j) as [[o' l'] Hj']; [lia|].
    exists o', l'. split; [done|].
    eapply (split_positive (len data_list) (_cpu_count st)); try done.
    unfold len in *. lia. }
  change (Z.of_nat 0) with 0 in Hfor. rewrite drop_0 in Hall. fold K in Hall.
  assert (py_index ps (-1) = Return (o, l)) as Hidx.
  { rewrite <- (take_ge ps (S K)) by lia. rewrite (take_S_r _ _ _ Hlast).
    apply py_index_last. }
  unfold split_list_and_send. rewrite Hsplit, Hfor, Hidx. simpl.
  split; [done|].
  erewrite concat_var_into_list_order; [| exact Hall | apply lookup_insert_eq].
  simpl. f_equal.
  rewrite (tiles_slices _ _ _ _ Hinit) by lia.
  unfold py_slice_from, clip. destruct (Z.ltb_spec o 0); [lia|].
  rewrite drop_0, Z.sub_0_r.
  replace (Z.to_nat (Z.min (Z.max o 0) (len data_list))) with (Z.to_nat o) by lia.
  apply take_drop.
Qed.

Lemma scatter_gather_round_trip_witness :
  let data_list := VInt <$> [1; 2; 3; 4; 5; 6; 7] in
  started (fresh_pool 4)
  ∧ Forall (ready demo_globals) (_pipes (fresh_pool 4))
  ∧ "v" ≠ "op"
  ∧ _cpu_count (fresh_pool 4) - 1 ≤ len data_list
  ∧ len data_list * _cpu_count (fresh_pool 4) < 2 ^ 53
  ∧ (concat_var_into_list demo_globals "v"
       (split_list_and_send data_list "v" (fresh_pool 4)).2).1 = Return data_list.
Proof.
  assert (started (fresh_pool 4)) as Hs by (by vm_compute).
  assert (Forall (ready demo_globals) (_pipes (fresh_pool 4))) as Hr
    by (repeat constructor).
  assert ("v" ≠ "op") as Hne by discriminate.
  assert (_cpu_count (fresh_pool 4) - 1 ≤ len (VInt <$> [1; 2; 3; 4; 5; 6; 7])) as Hl
    by (by vm_compute).
  assert (len (VInt <$> [1; 2; 3; 4; 5; 6; 7]) * _cpu_count (fresh_pool 4) < 2 ^ 53)
    as Hex by (by vm_compute).
  split; [exact Hs|]. split; [exact Hr|]. split; [exact Hne|]. split; [exact Hl|].
  split; [exact Hex|].
  apply (scatter_gather_round_trip demo_globals _ "v" (fresh_pool 4) Hs Hr Hne Hl Hex).
Defined.

(** A list with exactly as many items as children leaves main's share
    empty. *)
Example round_trip_three_items :
  let data_list := VInt <$> [1; 2; 3] in
  let st := (split_list_and_send data_list "v" (fresh_pool 4)).2 in
  _process_data st !! "v" = Some (VList [])
  ∧ (concat_var_into_list demo_globals "v" st).1 = Return data_list.
Proof. by vm_compute. Qed.

(** * Further properties of the partitioner *)

Lemma split_special_loop_past (e : Z) (xs : list Z) (acc : list (Z * Z)) (index : Z) :
  e ≤ index →
  fold_left
    (λ '(result, index) (_ : Z),
       if index <? e
       then (result ++ [(index, 1)], index + 1)
       else (result ++ [(index, 0)], index))
    xs (acc, index)
  = (acc ++ replicate (length xs) (index, 0), index).
Proof.
  intros He. revert acc. induction xs as [|x xs IH]; intros acc; simpl.
  - by rewrite app_nil_r.
  - destruct (Z.ltb_spec index e); [lia|]. rewrite IH. by rewrite <- app_assoc.
Qed.

Lemma split_nonpositive start length n :
  length ≤ 0 → 1 ≤ n →
  _split start length n = Return (replicate (Z.to_nat n) (start, 0)).
Proof.
  intros Hl Hn. unfold _split. destruct (Z.geb_spec length n); [lia|].
  rewrite split_special_loop_past by lia.
  by rewrite range_0, length_seqZ.
Qed.

Lemma split_no_participant start length n :
  n ≤ 0 →
  _split start length n = if length >=? n then Raise IndexError else Return [].
Proof.
  intros Hn. unfold _split. rewrite !range_0.
  rewrite (seqZ_nil 0 n) by lia. simpl.
  by destruct (length >=? n).
Qed.

Lemma py_index_fmap {A B} (f : A → B) (l : list A) (i : Z) :
  py_index (f <$> l) i = x ← py_index l i; Return (f x).
Proof.
  unfold py_index, len. rewrite length_fmap, list_lookup_fmap.
  destruct (_ && _); [|done]. by destruct (l !! _).
Qed.

(** Moving [start] moves every breakpoint, whatever the quotients are. *)
Lemma split_indices_shift (start length n : Z) (xs : list Z) (acc : list Z) :
  for_in xs
    (λ (i : Z) (indices : list Z),
       q ← int_truediv (length * i) n; Return (indices ++ [start + q]))
    (Z.add start <$> acc)
  = indices ← for_in xs
      (λ (i : Z) (indices : list Z),
         q ← int_truediv (length * i) n; Return (indices ++ [0 + q])) acc;
    Return (Z.add start <$> (indices : list Z)).
Proof.
  revert acc. induction xs as [|x xs IH]; intros acc; [done|].
  cbn [for_in]. destruct (int_truediv (length * x) n) as [q|e|];
    cbn [mbind result_bind]; [|done|done].
  rewrite <- IH. by rewrite fmap_app.
Qed.

Lemma split_pairs_shift (start : Z) (indices xs : list Z) (acc : list (Z * Z)) :
  for_in xs
    (λ (i : Z) (result : list (Z * Z)),
       a ← py_index (Z.add start <$> indices) i;
       b ← py_index (Z.add start <$> indices) (i + 1);
       Return (result ++ [(a, b - a)]))
    ((λ p : Z * Z, (start + p.1, p.2)) <$> acc)
  = result ← for_in xs
      (λ (i : Z) (result : list (Z * Z)),
         a ← py_index indices i;
         b ← py_index indices (i + 1);
         Return (result ++ [(a, b - a)])) acc;
    Return ((λ p : Z * Z, (start + p.1, p.2)) <$> (result : list (Z * Z))).
Proof.
  revert acc. induction xs as [|x xs IH]; intros acc; [done|].
  cbn [for_in]. rewrite !py_index_fmap.
  destruct (py_index indices x) as [a|e|]; cbn [mbind result_bind]; [|done|done].
  destruct (py_index indices (x + 1)) as [b|e|]; cbn [mbind result_bind]; [|done|done].
  rewrite <- IH. rewrite fmap_app. cbn [fmap list_fmap fst snd].
  by replace (start + b - (start + a)) with (b - a) by lia.
Qed.

(** X1: [_split] with no participant (num_splits <= 0) has no last
    breakpoint to close the range with and raises IndexError when
    length >= num_splits; below that it returns the empty list. *)
Theorem split_without_participants (start length num_splits : Z) :
  num_splits ≤ 0 →
  (num_splits ≤ length → _split start length num_splits = Raise IndexError)
  ∧ (length < num_splits → _split start length num_splits = Return []).
Proof.
  intros Hn. rewrite (split_no_participant _ _ _ Hn). split; intros H.
  - destruct (Z.geb_spec length num_splits); [done|lia].
  - destruct (Z.geb_spec length num_splits); [lia|done].
Qed.

Lemma split_without_participants_witness :
  0 ≤ 0 ∧ _split 0 5 0 = Raise IndexError.
Proof.
  split; [lia|].
  destruct (split_without_participants 0 5 0) as [H _]; [lia|]. apply H. lia.
Defined.

(** X2: a length that is zero or negative is an empty range: every one of
    the num_splits pairs is (start, 0). *)
Theorem split_empty_or_negative (start length num_splits : Z) :
  length ≤ 0 → 1 ≤ num_splits →
  _split start length num_splits
  = Return (replicate (Z.to_nat num_splits) (start, 0)).
Proof. apply split_nonpositive. Qed.

Lemma split_empty_or_negative_witness :
  -2 ≤ 0 ∧ 1 ≤ 3 ∧ _split 3 (-2) 3 = Return [(3, 0); (3, 0); (3, 0)].
Proof.
  split; [lia|]. split; [lia|]. apply (split_empty_or_negative 3 (-2) 3); lia.
Defined.

(** X3: the partition does not depend on where the range starts: the
    pairs for [start] are those for 0 with every offset moved by [start],
    and the call fails for [start] exactly when it fails for 0. *)
Theorem split_shift (start length num_splits : Z) :
  _split start length num_splits
  = ps ← _split 0 length num_splits;
    Return ((λ p : Z * Z, (start + p.1, p.2)) <$> (ps : list (Z * Z))).
Proof.
  destruct (decide (num_splits ≤ 0)) as [Hn|Hn].
  - rewrite !split_no_participant by done. by destruct (length >=? num_splits).
  - destruct (decide (length ≤ 0)) as [Hl|Hl].
    { rewrite !split_nonpositive by lia. simpl. f_equal.
      rewrite fmap_replicate. simpl. by rewrite Z.add_0_r. }
    destruct (decide (num_splits ≤ length)).
    + unfold _split. destruct (Z.geb_spec length num_splits); [|lia].
      pose proof (split_indices_shift start length num_splits
                    (range 0 num_splits) []) as Hindices.
      cbn [fmap list_fmap] in Hindices. rewrite Hindices. clear Hindices.
      destruct (for_in (range 0 num_splits) _ []) as [indices|e|];
        cbn [mbind result_bind]; [|done|done].
      replace (len (Z.add start <$> indices)) with (len indices)
        by (unfold len; by rewrite length_fmap).
      pose proof (split_pairs_shift start indices
                    (range 0 (len indices - 1)) []) as Hpairs.
      cbn [fmap list_fmap] in Hpairs. rewrite Hpairs. clear Hpairs.
      destruct (for_in (range 0 (len indices - 1)) _ []) as [result|e|];
        cbn [mbind result_bind]; [|done|done].
      rewrite py_index_fmap.
      destruct (py_index indices (-1)) as [last|e|]; cbn [mbind result_bind];
        [|done|done].
      f_equal. rewrite fmap_app. cbn [fmap list_fmap fst snd]. do 3 f_equal. lia.
    + rewrite !split_special by lia. simpl. f_equal.
      rewrite fmap_app, fmap_replicate, <- list_fmap_compose. simpl.
      reflexivity.
Qed.

(** X4: the partition is fair while the float quotients are exact
    (length * num_splits < 2^53): every pair gets
    floor(length / num_splits) or one more, and never more than
    ceil(length / num_splits). *)
Theorem split_fair (start length num_splits : Z) (ps : list (Z * Z)) (o l : Z) :
  0 ≤ length → 1 ≤ num_splits → length * num_splits < 2 ^ 53 →
  _split start length num_splits = Return ps →
  (o, l) ∈ ps →
  length `div` num_splits ≤ l ≤ (length + num_splits - 1) `div` num_splits.
Proof.
  intros H0 Hn Hex Hsplit Hin.
  assert (length `div` num_splits ≤ l ∧ l * num_splits < length + num_splits) as [Hlo Hhi].
  { destruct (decide (num_splits ≤ length)).
    - rewrite split_standard in Hsplit by lia. injection Hsplit as <-.
      unfold cuts in Hin. apply list_elem_of_fmap in Hin as (i & [= -> ->] & Hi).
      apply elem_of_seqZ in Hi. unfold bp.
      pose proof (Z.div_mod (length * i) num_splits ltac:(lia)).
      pose proof (Z.div_mod (length * (i + 1)) num_splits ltac:(lia)).
      pose proof (Z.div_mod length num_splits ltac:(lia)).
      pose proof (Z.mod_pos_bound (length * i) num_splits ltac:(lia)).
      pose proof (Z.mod_pos_bound (length * (i + 1)) num_splits ltac:(lia)).
      pose proof (Z.mod_pos_bound length num_splits ltac:(lia)).
      split; nia.
    - rewrite split_special in Hsplit by lia. injection Hsplit as <-.
      rewrite Z.div_small by lia.
      apply elem_of_app in Hin as [Hin|Hin].
      + apply list_elem_of_fmap in Hin as (i & [= -> ->] & Hi).
        apply elem_of_seqZ in Hi. lia.
      + apply elem_of_replicate in Hin as [[= -> ->] _]. lia. }
  split; [done|]. apply Z.div_le_lower_bound; lia.
Qed.

Lemma split_fair_witness :
  0 ≤ 10 ∧ 1 ≤ 4 ∧ 10 * 4 < 2 ^ 53 ∧ 10 `div` 4 ≤ 3 ≤ (10 + 4 - 1) `div` 4.
Proof.
  split; [lia|]. split; [lia|]. split; [lia|].
  apply (split_fair 0 10 4 [(0, 2); (2, 3); (5, 2); (7, 3)] 2 3);
    [lia|lia|lia|reflexivity|]. set_solver.
Defined.

(** * Further properties of the pool *)

Section Lifecycle.

Variable globals : gmap string operation.

Lemma alive_send request w :
  alive globals w →
  w_status (step globals request (_message_loop globals w)) = Listening →
  alive globals (send request w).
Proof. intros Hal Hs. unfold alive. by rewrite message_loop_send. Qed.


Lemma message_loop_clear w :
  alive globals w →
  _message_loop globals (send {["op" := VStr "clear_all_data"]} w)
  = set_data ∅ (_message_loop globals w).
Proof. intros Hal. by rewrite message_loop_send. Qed.


End Lifecycle.

(** X5: [start_processes] adds max(0, _cpu_count - 1) children, each
    listening with empty pipes, and keeps the children already there and
    main's store; so a second call doubles the pool instead of leaving it
    as it is. *)
Theorem start_processes_adds_children (st : pool) :
  len (_pipes (start_processes st))
  = len (_pipes st) + Z.max 0 (_cpu_count st - 1)
  ∧ take (length (_pipes st)) (_pipes (start_processes st)) = _pipes st
  ∧ Forall (λ w, w_status w = Listening ∧ w_inbox w = [] ∧ w_outbox w = [])
      (drop (length (_pipes st)) (_pipes (start_processes st)))
  ∧ _process_data (start_processes st) = _process_data st
  ∧ len (_pipes (start_processes (start_processes st)))
    = len (_pipes st) + 2 * Z.max 0 (_cpu_count st - 1).
Proof.
  assert (∀ st, _pipes (start_processes st)
               = _pipes st ++ replicate (Z.to_nat (_cpu_count st - 1))
                                (Worker (_process_data st) [] [] [] Listening)
               ∧ _process_data (start_processes st) = _process_data st
               ∧ _cpu_count (start_processes st) = _cpu_count st) as Heq.
  { intros st0. unfold start_processes.
    rewrite start_processes_loop, range_0, length_seqZ. done. }
  destruct (Heq st) as (Hp & Hd & Hc). destruct (Heq (start_processes st)) as (Hp2 & _ & _).
  split_and!.
  - rewrite Hp. unfold len. rewrite length_app, length_replicate. lia.
  - rewrite Hp. by rewrite take_app_length.
  - rewrite Hp, drop_app_length. by apply Forall_replicate.
  - done.
  - rewrite Hp2, Hp, Hc. unfold len. rewrite !length_app, !length_replicate. lia.
Qed.



Section Broadcast.

Variable globals : gmap string operation.

Lemma settle_send_same_data st data_dict entries :
  heap st !! data_dict = Some entries →
  entries !! "op" = None →
  Forall (alive globals) (_pipes st) →
  _pipes (settle globals (send_same_data data_dict st))
  = (λ w, set_data (entries ∪ w_data (_message_loop globals w))
            (_message_loop globals w)) <$> _pipes st.
Proof.
  intros H Hop Hal. rewrite (send_same_data_eq _ _ _ H). unfold settle. simpl.
  rewrite <- list_fmap_compose. apply Forall_fmap_ext_1.
  eapply Forall_impl; [exact Hal|]. intros w Hw. simpl.
  rewrite message_loop_set_data by (done || by rewrite lookup_insert_eq).
  by rewrite delete_insert_id.
Qed.

Lemma clear_all_data_alive st :
  Forall (alive globals) (_pipes st) →
  Forall (alive globals) (_pipes (clear_all_data st)).
Proof.
  intros Hal. unfold clear_all_data. simpl. rewrite Forall_fmap.
  eapply Forall_impl; [exact Hal|]. intros w Hw. simpl.
  unfold alive. by rewrite message_loop_clear.
Qed.

End Broadcast.

(** X7: [send_same_data] merges the entries into every store and
    overwrites on a key collision: when the entries have no key "op" and
    the children are alive, each store afterwards is the entries laid
    over what the store held, so a key outside the entries keeps its
    value in every participant. *)
Theorem send_same_data_merges (globals : gmap string operation)
    (st : pool) (data_dict : positive) (entries : dict) :
  heap st !! data_dict = Some entries →
  entries !! "op" = None →
  Forall (alive globals) (_pipes st) →
  let st' := settle globals (send_same_data data_dict st) in
  _process_data st' = entries ∪ _process_data st
  ∧ w_data <$> _pipes st'
    = (λ w, entries ∪ w_data (_message_loop globals w)) <$> _pipes st
  ∧ ∀ key, entries !! key = None →
      _process_data st' !! key = _process_data st !! key
      ∧ (λ w, w_data w !! key) <$> _pipes st'
        = (λ w, w_data w !! key) <$> _pipes (settle globals st).
Proof.
  intros H Hop Hal st'. unfold st'.
  rewrite (settle_send_same_data _ _ _ _ H Hop Hal).
  rewrite (send_same_data_eq _ _ _ H). simpl. split_and!.
  - done.
  - by rewrite <- list_fmap_compose.
  - intros key Hkey. split; [by rewrite lookup_union_r|].
    rewrite <- !list_fmap_compose. apply list_fmap_ext. intros _ w _. simpl.
    by rewrite lookup_union_r.
Qed.

Lemma send_same_data_merges_witness :
  let st := set_process_data {["x" := VInt 1; "y" := VInt 2]}
              (set_object 1%positive {["x" := VInt 5]} (fresh_pool 3)) in
  let st' := settle demo_globals (send_same_data 1%positive st) in
  heap st !! 1%positive = Some {["x" := VInt 5]}
  ∧ Forall (alive demo_globals) (_pipes st)
  ∧ _process_data st' = {["x" := VInt 5]} ∪ {["x" := VInt 1; "y" := VInt 2]}.
Proof.
  assert (Forall (alive demo_globals)
            (_pipes (set_process_data {["x" := VInt 1; "y" := VInt 2]}
               (set_object 1%positive {["x" := VInt 5]} (fresh_pool 3))))) as Hal
    by (repeat constructor).
  split; [reflexivity|]. split; [exact Hal|].
  destruct (send_same_data_merges demo_globals
              (set_process_data {["x" := VInt 1; "y" := VInt 2]}
                 (set_object 1%positive {["x" := VInt 5]} (fresh_pool 3)))
              1%positive {["x" := VInt 5]}) as [Hmain _];
    [reflexivity|reflexivity|exact Hal|]. exact Hmain.
Defined.

(** X8: a dict object that was broadcast once holds the key "op"; when
    the same object is broadcast again, main copies that key into its own
    store ("op" := "set_data"), while the children, whose handler skips
    it, keep their stores free of it. *)
Theorem send_same_data_again_leaks_op (globals : gmap string operation)
    (st : pool) (data_dict : positive) (entries : dict) :
  heap st !! data_dict = Some entries →
  entries !! "op" = None →
  Forall (alive globals) (_pipes st) →
  let st' := settle globals (send_same_data data_dict (send_same_data data_dict st)) in
  _process_data st' !! "op" = Some (VStr "set_data")
  ∧ (λ w, w_data w !! "op") <$> _pipes st'
    = (λ w, w_data w !! "op") <$> _pipes (settle globals st).
Proof.
  intros H Hop Hal st'. unfold st'.
  set (entries' := <["op" := VStr "set_data"]> entries).
  assert (heap (send_same_data data_dict st) !! data_dict = Some entries') as H'.
  { rewrite (send_same_data_eq _ _ _ H). simpl. by rewrite lookup_insert_eq. }
  rewrite (send_same_data_eq _ _ _ H'), (send_same_data_eq _ _ _ H).
  unfold settle. simpl. split.
  - apply lookup_union_Some_l. unfold entries'. by rewrite lookup_insert_eq.
  - rewrite <- !list_fmap_compose. apply Forall_fmap_ext_1.
    eapply Forall_impl; [exact Hal|]. intros w Hw. simpl.
    assert (alive globals (send entries' w)) as Hw'.
    { apply alive_send; [done|]. rewrite step_set_data; [done|].
      unfold entries'. by rewrite lookup_insert_eq. }
    assert (entries' !! "op" = Some (VStr "set_data")) as Hop'
      by (unfold entries'; by rewrite lookup_insert_eq).
    fold entries'. unfold entries' at 1. rewrite insert_insert_eq. fold entries'.
    rewrite !message_loop_set_data by done. simpl.
    rewrite !lookup_union_r by apply lookup_delete_eq. done.
Qed.

Lemma send_same_data_again_leaks_op_witness :
  let st := set_object 1%positive {["x" := VInt 5]} (fresh_pool 3) in
  heap st !! 1%positive = Some {["x" := VInt 5]}
  ∧ Forall (alive demo_globals) (_pipes st)
  ∧ _process_data (send_same_data 1%positive (send_same_data 1%positive st)) !! "op"
    = Some (VStr "set_data").
Proof.
  assert (Forall (alive demo_globals)
            (_pipes (set_object 1%positive {["x" := VInt 5]} (fresh_pool 3)))) as Hal
    by (repeat constructor).
  split; [reflexivity|]. split; [exact Hal|].
  destruct (send_same_data_again_leaks_op demo_globals
              (set_object 1%positive {["x" := VInt 5]} (fresh_pool 3))
              1%positive {["x" := VInt 5]}) as [Hmain _];
    [reflexivity|reflexivity|exact Hal|]. exact Hmain.
Defined.

(** X9: [clear_all_data] empties the store of main and of every child
    that is alive, whatever they held; a broadcast that follows leaves
    exactly its entries in each of them, so all participants agree. *)
Theorem clear_all_data_resets (globals : gmap string operation)
    (st : pool) (data_dict : positive) (entries : dict) :
  heap st !! data_dict = Some entries →
  entries !! "op" = None →
  Forall (alive globals) (_pipes st) →
  let cleared := settle globals (clear_all_data st) in
  let st' := settle globals (send_same_data data_dict (clear_all_data st)) in
  _process_data cleared = ∅
  ∧ Forall (λ w, w_data w = ∅ ∧ w_status w = Listening) (_pipes cleared)
  ∧ _process_data st' = entries
  ∧ Forall (λ w, w_data w = entries ∧ w_status w = Listening) (_pipes st').
Proof.
  intros H Hop Hal cleared st'. split_and!.
  - done.
  - unfold cleared, settle, clear_all_data. simpl. rewrite !Forall_fmap.
    eapply Forall_impl; [exact Hal|]. intros w Hw. simpl.
    by rewrite message_loop_clear.
  - unfold st'. rewrite (send_same_data_eq (clear_all_data st) _ _ H). simpl.
    by rewrite (right_id_L ∅ (∪)).
  - unfold st'.
    rewrite (settle_send_same_data _ (clear_all_data st) _ _ H Hop
               (clear_all_data_alive _ _ Hal)).
    unfold clear_all_data. simpl. rewrite !Forall_fmap.
    eapply Forall_impl; [exact Hal|]. intros w Hw. simpl.
    rewrite message_loop_clear by done. simpl. split; [|done].
    by rewrite (right_id_L ∅ (∪)).
Qed.

Lemma clear_all_data_resets_witness :
  let st := set_process_data {["y" := VInt 2]}
              (set_object 1%positive {["x" := VInt 5]} (fresh_pool 3)) in
  heap st !! 1%positive = Some {["x" := VInt 5]}
  ∧ Forall (alive demo_globals) (_pipes st)
  ∧ _process_data (settle demo_globals (send_same_data 1%positive (clear_all_data st)))
    = {["x" := VInt 5]}.
Proof.
  assert (Forall (alive demo_globals)
            (_pipes (set_process_data {["y" := VInt 2]}
               (set_object 1%positive {["x" := VInt 5]} (fresh_pool 3))))) as Hal
    by (repeat constructor).
  split; [reflexivity|]. split; [exact Hal|].
  destruct (clear_all_data_resets demo_globals
              (set_process_data {["y" := VInt 2]}
                 (set_object 1%positive {["x" := VInt 5]} (fresh_pool 3)))
              1%positive {["x" := VInt 5]}) as (_ & _ & Hmain & _);
    [reflexivity|reflexivity|exact Hal|]. exact Hmain.
Defined.

Section GatherMore.

Variable globals : gmap string operation.

Lemma ready_settled w : ready globals w → ready globals (_message_loop globals w).
Proof.
  intros [Hal Hout]. unfold ready, alive. by rewrite message_loop_twice.
Qed.

Lemma holds_settled var_name w l :
  alive globals w → holds globals var_name w l →
  holds globals var_name (_message_loop globals w) l.
Proof. intros Hal. unfold holds. by rewrite message_loop_twice. Qed.

Lemma settle_settle st :
  Forall (alive globals) (_pipes st) → settle globals (settle globals st) = settle globals st.
Proof.
  intros Hal. unfold settle, set_pipes. simpl. f_equal.
  rewrite <- list_fmap_compose. apply Forall_fmap_ext_1.
  eapply Forall_impl; [exact Hal|]. intros w Hw. simpl. by apply message_loop_twice.
Qed.

(** A ready child that lacks the variable dies on get_var and main's
    [recv] finds the pipe closed. *)
Lemma recv_get_var_missing var_name w :
  ready globals w →
  w_data (_message_loop globals w) !! var_name = None →
  recv globals (send (get_var var_name) w)
  = (Raise EOFError,
     set_status (Crashed (KeyError (VStr var_name))) (_message_loop globals w)).
Proof.
  intros [Hal Hout] Hv. unfold recv.
  rewrite message_loop_send by done.
  rewrite (step_get_var_missing _ _ var_name)
    by (done || apply get_var_op || apply get_var_name).
  simpl. by rewrite Hout.
Qed.

Lemma gather_list_missing var_name ws1 ls w ws2 :
  Forall2 (λ w l, ready globals w ∧ holds globals var_name w l) ws1 ls →
  ready globals w →
  w_data (_message_loop globals w) !! var_name = None →
  ∀ i var_list,
    for_pipes
      (λ _ pipe var_list,
         let '(reply, pipe) := recv globals pipe in
         (v ← reply; extend var_list v, pipe))
      i (send (get_var var_name) <$> (ws1 ++ w :: ws2)) var_list
    = (Raise EOFError,
       (_message_loop globals <$> ws1)
       ++ set_status (Crashed (KeyError (VStr var_name))) (_message_loop globals w)
       :: (send (get_var var_name) <$> ws2)).
Proof.
  intros Hws Hw Hv.
  induction Hws as [|w1 l ws ls [Hr Hv1] _ IH]; intros i var_list.
  - rewrite app_nil_l, fmap_cons. cbn [for_pipes].
    by rewrite recv_get_var_missing.
  - rewrite <- app_comm_cons, !fmap_cons. cbn [for_pipes].
    rewrite (recv_get_var _ _ _ (VList l)) by done. cbn [mbind result_bind extend].
    rewrite IH. done.
Qed.

End GatherMore.

(** X10: the aggregation order.  When every child is ready and holds a
    list under the name, and main holds one too, [concat_var_into_list]
    returns the items of child 0, child 1, ..., child K-1 and then
    main's, and leaves every store as it was. *)
Theorem aggregation_order (globals : gmap string operation)
    (var_name : string) (st : pool) (ls : list (list value)) (lm : list value) :
  Forall2 (λ w l, ready globals w ∧ holds globals var_name w l) (_pipes st) ls →
  _process_data st !! var_name = Some (VList lm) →
  concat_var_into_list globals var_name st
  = (Return (concat ls ++ lm), settle globals st).
Proof. apply concat_var_into_list_order. Qed.

Lemma aggregation_order_witness :
  let st :=
    Pool 3 [Worker {["v" := VList [VInt 1; VInt 2]]} [] [] [] Listening;
            Worker {["v" := VList [VInt 3]]} [] [] [] Listening]
      {["v" := VList [VInt 4; VInt 5]]} ∅ in
  Forall2 (λ w l, ready demo_globals w ∧ holds demo_globals "v" w l) (_pipes st)
    [[VInt 1; VInt 2]; [VInt 3]]
  ∧ _process_data st !! "v" = Some (VList [VInt 4; VInt 5])
  ∧ (concat_var_into_list demo_globals "v" st).1
    = Return [VInt 1; VInt 2; VInt 3; VInt 4; VInt 5].
Proof.
  assert (Forall2 (λ w l, ready demo_globals w ∧ holds demo_globals "v" w l)
            [Worker {["v" := VList [VInt 1; VInt 2]]} [] [] [] Listening;
             Worker {["v" := VList [VInt 3]]} [] [] [] Listening]
            [[VInt 1; VInt 2]; [VInt 3]]) as Hws.
  { repeat constructor. }
  split; [exact Hws|]. split; [reflexivity|].
  rewrite (aggregation_order demo_globals "v"
             (Pool 3 [Worker {["v" := VList [VInt 1; VInt 2]]} [] [] [] Listening;
                      Worker {["v" := VList [VInt 3]]} [] [] [] Listening]
                {["v" := VList [VInt 4; VInt 5]]} ∅)
             _ [VInt 4; VInt 5] Hws); reflexivity.
Defined.

(** X11: gathering does not use up what it gathers: when every child is
    ready and holds a list under the name, and main holds one too, a
    second [concat_var_into_list] returns the same list and leaves the
    same state. *)
Theorem concat_var_into_list_again (globals : gmap string operation)
    (var_name : string) (st : pool) (ls : list (list value)) (lm : list value) :
  Forall2 (λ w l, ready globals w ∧ holds globals var_name w l) (_pipes st) ls →
  _process_data st !! var_name = Some (VList lm) →
  concat_var_into_list globals var_name (concat_var_into_list globals var_name st).2
  = concat_var_into_list globals var_name st.
Proof.
  intros Hws Hv.
  rewrite (concat_var_into_list_order _ _ _ _ _ Hws Hv). simpl.
  assert (Forall (alive globals) (_pipes st)) as Hal.
  { clear Hv. induction Hws as [|? ? ? ? [[? ?] ?]]; by constructor. }
  erewrite concat_var_into_list_order; [| |exact Hv].
  - by rewrite settle_settle.
  - unfold settle. simpl. apply Forall2_fmap_l.
    eapply Forall2_impl; [exact Hws|]. intros w l [Hr Hh]. simpl. split.
    + by apply ready_settled.
    + apply holds_settled; [apply Hr|done].
Qed.

Lemma concat_var_into_list_again_witness :
  let st :=
    Pool 2 [Worker {["v" := VList [VInt 1; VInt 2]]} [] [] [] Listening]
      {["v" := VList [VInt 4]]} ∅ in
  Forall2 (λ w l, ready demo_globals w ∧ holds demo_globals "v" w l) (_pipes st)
    [[VInt 1; VInt 2]]
  ∧ _process_data st !! "v" = Some (VList [VInt 4])
  ∧ concat_var_into_list demo_globals "v" (concat_var_into_list demo_globals "v" st).2
    = concat_var_into_list demo_globals "v" st.
Proof.
  assert (Forall2 (λ w l, ready demo_globals w ∧ holds demo_globals "v" w l)
            [Worker {["v" := VList [VInt 1; VInt 2]]} [] [] [] Listening]
            [[VInt 1; VInt 2]]) as Hws.
  { repeat constructor. }
  split; [exact Hws|]. split; [reflexivity|].
  apply (concat_var_into_list_again demo_globals "v"
           (Pool 2 [Worker {["v" := VList [VInt 1; VInt 2]]} [] [] [] Listening]
              {["v" := VList [VInt 4]]} ∅)
           _ [VInt 4] Hws); reflexivity.
Defined.

(** X12: a variable that a child lacks is fatal to that child: when
    every child is alive, the children before child i are ready and hold a
    list under the name, and child i, ready, lacks it,
    [concat_var_into_list] raises EOFError in main and child i has died
    of KeyError on the variable's name. *)
Theorem concat_var_into_list_child_lacks (globals : gmap string operation)
    (var_name : string) (st : pool) (ws1 ws2 : list worker) (w : worker)
    (ls : list (list value)) :
  _pipes st = ws1 ++ w :: ws2 →
  Forall2 (λ w l, ready globals w ∧ holds globals var_name w l) ws1 ls →
  ready globals w →
  w_data (_message_loop globals w) !! var_name = None →
  Forall (alive globals) ws2 →
  (concat_var_into_list globals var_name st).1 = Raise EOFError
  ∧ w_status <$> _pipes (concat_var_into_list globals var_name st).2 !! length ws1
    = Some (Crashed (KeyError (VStr var_name))).
Proof.
  intros Hp Hws Hw Hv _. unfold concat_var_into_list. simpl. rewrite Hp.
  rewrite (gather_list_missing _ _ _ _ _ _ Hws Hw Hv). simpl.
  split; [done|].
  rewrite lookup_app_r by (by rewrite length_fmap).
  by rewrite length_fmap, Nat.sub_diag.
Qed.

Lemma concat_var_into_list_child_lacks_witness :
  let w0 := Worker {["v" := VList [VInt 1]]} [] [] [] Listening in
  let w1 := Worker ∅ [] [] [] Listening in
  let st := Pool 3 [w0; w1] {["v" := VList [VInt 4]]} ∅ in
  ready demo_globals w1
  ∧ w_data (_message_loop demo_globals w1) !! "v" = None
  ∧ (concat_var_into_list demo_globals "v" st).1 = Raise EOFError.
Proof.
  assert (ready demo_globals (Worker ∅ [] [] [] Listening)) as Hw by done.
  split; [exact Hw|]. split; [reflexivity|].
  destruct (concat_var_into_list_child_lacks demo_globals "v"
             (Pool 3 [Worker {["v" := VList [VInt 1]]} [] [] [] Listening;
                      Worker ∅ [] [] [] Listening] {["v" := VList [VInt 4]]} ∅)
             [Worker {["v" := VList [VInt 1]]} [] [] [] Listening] []
             (Worker ∅ [] [] [] Listening) [[VInt 1]]) as [Heq _].
  - reflexivity.
  - repeat constructor.
  - exact Hw.
  - reflexivity.
  - constructor.
  - exact Heq.
Defined.

(** X13: when every child is ready and holds a list under the name but
    main lacks it, [concat_var_into_list] raises KeyError on the name
    after it has taken every child's reply; with no child at all
    [concat_var_into_numpy_array] raises the same, whatever
    [numpy.concatenate] does. *)
Theorem concat_var_main_lacks (globals : gmap string operation)
    (ndarray : Type)
    (numpy_concatenate : array_like ndarray → array_like ndarray → result ndarray)
    (var_name : string) (st : pool) (ls : list (list value)) :
  Forall2 (λ w l, ready globals w ∧ holds globals var_name w l) (_pipes st) ls →
  _process_data st !! var_name = None →
  concat_var_into_list globals var_name st
  = (Raise (KeyError (VStr var_name)), settle globals st)
  ∧ (_pipes st = [] →
     (concat_var_into_numpy_array globals numpy_concatenate var_name st).1
     = Raise (KeyError (VStr var_name))).
Proof.
  intros Hws Hv. split.
  - unfold concat_var_into_list. simpl.
    rewrite (gather_list _ _ _ _ Hws). simpl. by rewrite Hv.
  - intros Hp. unfold concat_var_into_numpy_array. rewrite Hp. simpl. by rewrite Hv.
Qed.

Lemma concat_var_main_lacks_witness :
  let st := Pool 2 [Worker {["v" := VList [VInt 1]]} [] [] [] Listening] ∅ ∅ in
  Forall2 (λ w l, ready demo_globals w ∧ holds demo_globals "v" w l) (_pipes st)
    [[VInt 1]]
  ∧ _process_data st !! "v" = None
  ∧ (concat_var_into_list demo_globals "v" st).1 = Raise (KeyError (VStr "v")).
Proof.
  assert (Forall2 (λ w l, ready demo_globals w ∧ holds demo_globals "v" w l)
            [Worker {["v" := VList [VInt 1]]} [] [] [] Listening] [[VInt 1]]) as Hws.
  { repeat constructor. }
  split; [exact Hws|]. split; [reflexivity|].
  destruct (concat_var_main_lacks demo_globals (list value) demo_concatenate "v"
              (Pool 2 [Worker {["v" := VList [VInt 1]]} [] [] [] Listening] ∅ ∅)
              [[VInt 1]] Hws) as [Heq _].
  - reflexivity.
  - by rewrite Heq.
Defined.

Section SendLoops.

Variable globals : gmap string operation.


(** A loop over the pipes that looks up pair i for child i and hands it
    over: it goes through when there is a pair for every child. *)
Lemma send_loop (ps : list (Z * Z)) (f : Z * Z → worker → worker)
    (body : Z → worker → unit → result unit * worker) :
  (∀ i p w, py_index ps i = Return p → body i w tt = (Return tt, f p w)) →
  ∀ ws (k : nat),
    (k + length ws ≤ length ps)%nat →
    for_pipes body (Z.of_nat k) ws tt
    = (Return tt, zip_with (λ w p, f p w) ws (drop k ps)).
Proof.
  intros Hbody. induction ws as [|w ws IH]; intros k Hk; [done|].
  simpl in Hk. destruct (lookup_lt_is_Some_2 ps k) as [p Hp]; [lia|].
  cbn [for_pipes]. rewrite (Hbody _ p) by by apply py_index_lookup.
  replace (Z.of_nat k + 1) with (Z.of_nat (S k)) by lia.
  rewrite IH by lia. by rewrite (drop_S _ _ _ Hp).
Qed.

Lemma send_loop_0 (ps : list (Z * Z)) (f : Z * Z → worker → worker)
    (body : Z → worker → unit → result unit * worker) ws :
  (∀ i p w, py_index ps i = Return p → body i w tt = (Return tt, f p w)) →
  (length ws ≤ length ps)%nat →
  for_pipes body 0 ws tt = (Return tt, zip_with (λ w p, f p w) ws ps).
Proof. intros Hbody Hlen. by apply (send_loop ps f body Hbody ws 0%nat). Qed.


Lemma list_def_settled (ws : list worker) (qs : list (Z * Z)) :
  Forall (alive globals) ws → (length ws ≤ length qs)%nat →
  (λ w, w_data w !! "list_def")
    <$> (_message_loop globals
           <$> zip_with
                 (λ w p, send (<["list_def" := tuple2 p]> {["op" := VStr "set_data"]}) w)
                 ws qs)
  = (λ p, Some (tuple2 p)) <$> take (length ws) qs.
Proof.
  intros Hal. revert qs. induction Hal as [|w ws Hw _ IH]; intros qs Hlen; [done|].
  destruct qs as [|q qs]; [simpl in Hlen; lia|]. simpl in Hlen.
  cbn [zip_with length take]. rewrite !fmap_cons. f_equal; [|apply IH; lia].
  rewrite message_loop_set_data by done. simpl.
  apply lookup_union_Some_l. by rewrite lookup_delete_ne, lookup_insert_eq.
Qed.

Lemma py_index_minus_1 {A} (l : list A) (K : nat) (x : A) :
  length l = S K → l !! K = Some x → py_index l (-1) = Return x.
Proof.
  intros Hlen Hx. rewrite <- (take_ge l (S K)) by lia. rewrite (take_S_r _ _ _ Hx).
  apply py_index_last.
Qed.

End SendLoops.

(** X14: in a pool started once with its children alive, and for a
    length with length * participants < 2^53 (so that the float
    quotients are exact), [define_list] gives every participant its own
    pair of the partition of [0, length):
    once the children have taken their requests, the "list_def" entries of
    child 0, ..., child K-1 and main, in that order, are the pairs that
    [_split] returns, and these tile [0, length). *)
Theorem define_list_partitions (globals : gmap string operation)
    (length : Z) (st : pool) :
  started st → 0 ≤ length → length * _cpu_count st < 2 ^ 53 →
  Forall (alive globals) (_pipes st) →
  ∃ ps,
    _split 0 length (_cpu_count st) = Return ps
    ∧ tiles 0 ps length
    ∧ (define_list length st).1 = Return tt
    ∧ let st' := settle globals (define_list length st).2 in
      ((λ w, w_data w !! "list_def") <$> _pipes st')
      ++ [_process_data st' !! "list_def"]
      = (λ p, Some (tuple2 p)) <$> ps.
Proof.
  intros [Hn HK] H0 Hex Hal.
  destruct (split_tiling 0 length (_cpu_count st) H0 Hn Hex)
    as (ps & Hsplit & Hps & Ht).
  exists ps. split; [done|]. split; [done|].
  set (K := List.length (_pipes st)).
  assert (List.length ps = S K) as HpsK by (unfold len in *; lia).
  destruct (lookup_lt_is_Some_2 ps K) as [p Hlast]; [lia|].
  unfold define_list. rewrite Hsplit.
  erewrite (send_loop_0 ps
              (λ p, send (<["list_def" := tuple2 p]> {["op" := VStr "set_data"]})));
    [|by intros i q w ->|lia].
  rewrite (py_index_minus_1 _ K p) by done. simpl. split; [done|].
  rewrite (list_def_settled globals (_pipes st) ps Hal) by lia. fold K.
  rewrite lookup_insert_eq.
  rewrite <- (take_ge ps (S K)) at 2 by lia. rewrite (take_S_r _ _ _ Hlast).
  by rewrite fmap_app.
Qed.

Lemma define_list_partitions_witness :
  started (fresh_pool 4) ∧ 0 ≤ 10 ∧ 10 * _cpu_count (fresh_pool 4) < 2 ^ 53
  ∧ Forall (alive demo_globals) (_pipes (fresh_pool 4))
  ∧ ∃ ps, _split 0 10 4 = Return ps ∧ tiles 0 ps 10
          ∧ (define_list 10 (fresh_pool 4)).1 = Return tt.
Proof.
  assert (started (fresh_pool 4)) as Hs by (by vm_compute).
  assert (Forall (alive demo_globals) (_pipes (fresh_pool 4))) as Hal
    by (repeat constructor).
  assert (10 * _cpu_count (fresh_pool 4) < 2 ^ 53) as Hex by (by vm_compute).
  split; [exact Hs|]. split; [lia|]. split; [exact Hex|]. split; [exact Hal|].
  destruct (define_list_partitions demo_globals 10 (fresh_pool 4) Hs ltac:(lia) Hex Hal)
    as (ps & ? & ? & ? & _).
  by exists ps.
Defined.



Section Dispatch.

Variable globals : gmap string operation.

Lemma step_run_known request function_name f w :
  request !! "op" = Some (VStr "run_function") →
  request !! "op_name" = Some (VStr function_name) →
  globals !! function_name = Some f →
  step globals request w
  = match f request (w_data w) with
    | (d, None) => set_data d w
    | (d, Some msg) => set_status (Crashed (OpRaised msg)) (set_data d w)
    end.
Proof. unfold step. intros -> -> H. by rewrite H. Qed.

Lemma ready_send_same_data entries w :
  entries !! "op" = None → ready globals w →
  ready globals (send (<["op" := VStr "set_data"]> entries) w)
  ∧ w_data (_message_loop globals (send (<["op" := VStr "set_data"]> entries) w))
    = entries ∪ w_data (_message_loop globals w).
Proof.
  intros Hop [Hal Hout]. unfold ready, alive.
  rewrite message_loop_set_data by (done || by rewrite lookup_insert_eq).
  simpl. by rewrite delete_insert_id.
Qed.

End Dispatch.

(** X16: a variable that was broadcast as a number cannot be gathered:
    after [send_same_data] with name := an int, [concat_var_into_list] on
    that name raises TypeError at the first [var_list += ...], whether the
    first value comes from child 0 or, in a pool without children, from
    main. *)
Theorem concat_of_broadcast_number (globals : gmap string operation)
    (st : pool) (data_dict : positive) (entries : dict)
    (var_name : string) (z : Z) :
  heap st !! data_dict = Some entries →
  entries !! "op" = None →
  entries !! var_name = Some (VInt z) →
  Forall (ready globals) (_pipes st) →
  (concat_var_into_list globals var_name (send_same_data data_dict st)).1
  = Raise TypeError.
Proof.
  intros H Hop Hz Hready. rewrite (send_same_data_eq _ _ _ H).
  unfold concat_var_into_list. cbn [_pipes set_pipes _process_data].
  destruct Hready as [|w ws Hw _].
  - simpl. by rewrite (lookup_union_Some_l _ _ _ _ Hz).
  - rewrite !fmap_cons. cbn [for_pipes].
    destruct (ready_send_same_data globals entries w Hop Hw) as [Hr Hd].
    rewrite (recv_get_var _ _ _ (VInt z)); [done|done|].
    rewrite Hd. by apply lookup_union_Some_l.
Qed.

Lemma concat_of_broadcast_number_witness :
  let st := set_object 1%positive {["x" := VInt 5]} (fresh_pool 3) in
  heap st !! 1%positive = Some {["x" := VInt 5]}
  ∧ Forall (ready demo_globals) (_pipes st)
  ∧ (concat_var_into_list demo_globals "x" (send_same_data 1%positive st)).1
    = Raise TypeError.
Proof.
  assert (Forall (ready demo_globals)
            (_pipes (set_object 1%positive {["x" := VInt 5]} (fresh_pool 3)))) as Hr
    by (repeat constructor).
  split; [reflexivity|]. split; [exact Hr|].
  apply (concat_of_broadcast_number demo_globals _ 1%positive {["x" := VInt 5]} "x" 5);
    [reflexivity|reflexivity|reflexivity|exact Hr].
Defined.

(** X17: [run_function] runs the named operation in every participant,
    each on its own store and all with the same request, the caller's map
    with "op" and "op_name" added.  Main returns when the operation
    returns there and raises what it raises; a child in which it raises
    dies, the others go on listening. *)
Theorem run_function_everywhere (globals : gmap string operation)
    (function_name : string) (f : operation)
    (st : pool) (arg_dict : positive) (args : dict) :
  heap st !! arg_dict = Some args →
  args !! "op" = None → args !! "op_name" = None →
  globals !! function_name = Some f →
  Forall (alive globals) (_pipes st) →
  let request :=
    <["op_name" := VStr function_name]> (<["op" := VStr "run_function"]> args) in
  let done := run_function globals function_name (Some arg_dict) st in
  let st' := settle globals done.2 in
  done.1 = match (f request (_process_data st)).2 with
           | None => Return tt
           | Some msg => Raise (OpRaised msg)
           end
  ∧ _process_data st' = (f request (_process_data st)).1
  ∧ w_data <$> _pipes st'
    = (λ w, (f request (w_data (_message_loop globals w))).1) <$> _pipes st
  ∧ w_status <$> _pipes st'
    = (λ w, match (f request (w_data (_message_loop globals w))).2 with
            | None => Listening
            | Some msg => Crashed (OpRaised msg)
            end) <$> _pipes st.
Proof.
  intros H Hop Hname Hf Hal request done st'. unfold st', done.
  rewrite (run_function_eq _ _ _ _ _ H Hop Hname), Hf. fold request.
  assert (Hw : ∀ w, alive globals w →
            _message_loop globals (send request w)
            = match f request (w_data (_message_loop globals w)) with
              | (d, None) => set_data d (_message_loop globals w)
              | (d, Some msg) =>
                  set_status (Crashed (OpRaised msg)) (set_data d (_message_loop globals w))
              end).
  { intros w Hw. rewrite message_loop_send by done.
    apply (step_run_known _ _ function_name); [|by apply lookup_insert_eq|done].
    unfold request. by rewrite lookup_insert_ne, lookup_insert_eq. }
  assert (∀ A (g : worker → A) (h : worker → A),
            (∀ w, alive globals w → g (_message_loop globals (send request w)) = h w) →
            g <$> (_message_loop globals <$> (send request <$> _pipes st))
            = h <$> _pipes st) as Hmap.
  { intros A g h Hgh. rewrite <- !list_fmap_compose. apply Forall_fmap_ext_1.
    eapply Forall_impl; [exact Hal|]. intros w Hal'. simpl. by apply Hgh. }
  destruct (f request (_process_data st)) as [d [msg|]] eqn:Hmain; simpl.
  - split_and!; [done|done| |]; apply Hmap; intros w Hal'; rewrite (Hw w Hal');
      by destruct (f request (w_data (_message_loop globals w))) as [d' [msg'|]].
  - split_and!; [done|done| |]; apply Hmap; intros w Hal'; rewrite (Hw w Hal');
      by destruct (f request (w_data (_message_loop globals w))) as [d' [msg'|]].
Qed.

Lemma run_function_everywhere_witness :
  let st := set_object 1%positive {["x" := VInt 5]} (fresh_pool 3) in
  let done := run_function demo_globals "mark" (Some 1%positive) st in
  heap st !! 1%positive = Some {["x" := VInt 5]}
  ∧ Forall (alive demo_globals) (_pipes st)
  ∧ done.1 = Return tt
  ∧ w_data <$> _pipes (settle demo_globals done.2)
    = [{["mark" := VInt 1]}; {["mark" := VInt 1]}].
Proof.
  assert (Forall (alive demo_globals)
            (_pipes (set_object 1%positive {["x" := VInt 5]} (fresh_pool 3)))) as Hal
    by (repeat constructor).
  split; [reflexivity|]. split; [exact Hal|].
  destruct (run_function_everywhere demo_globals "mark"
              (λ request data, (<["mark" := VInt 1]> data, None))
              (set_object 1%positive {["x" := VInt 5]} (fresh_pool 3))
              1%positive {["x" := VInt 5]}) as (H1 & _ & H3 & _);
    [reflexivity|reflexivity|reflexivity|reflexivity|exact Hal|].
  split; [exact H1|]. rewrite H3. reflexivity.
Defined.

Section Shares.

Variable globals : gmap string operation.

Lemma ready_alive w : ready globals w → alive globals w.
Proof. by intros [? ?]. Qed.

(** What a child holds once it has taken first its pair and then its
    slice. *)
Lemma shares_settled (data_list : list value) (var_name : string)
    (ws : list worker) (qs : list (Z * Z)) :
  var_name ≠ "op" → var_name ≠ "list_def" →
  Forall (alive globals) ws → (length ws ≤ length qs)%nat →
  Forall (λ q, 0 < q.2) (take (length ws) qs) →
  Forall2
    (λ s p, s !! "list_def" = Some (tuple2 p)
            ∧ s !! var_name = Some (VList (py_slice data_list p.1 (p.1 + p.2))))
    (w_data
       <$> (_message_loop globals
              <$> zip_with
                    (λ w p,
                       if p.2 >? 0 then
                         send (<[var_name := VList (py_slice data_list p.1 (p.1 + p.2))]>
                                 {["op" := VStr "set_data"]}) w
                       else w)
                    (zip_with
                       (λ w p, send (<["list_def" := tuple2 p]>
                                       {["op" := VStr "set_data"]}) w)
                       ws qs)
                    qs))
    (take (length ws) qs).
Proof.
  intros Hop Hld Hal. revert qs.
  induction Hal as [|w ws Hw _ IH]; intros qs Hlen Hpos; [constructor|].
  destruct qs as [|q qs]; [simpl in Hlen; lia|]. simpl in Hlen.
  cbn [length take] in Hpos. apply Forall_cons in Hpos as [Hq Hpos].
  cbn [zip_with length take]. rewrite !fmap_cons.
  constructor; [|apply IH; [lia|done]].
  destruct (Z.gtb_spec q.2 0) as [_|]; [|lia].
  set (ld := <["list_def" := tuple2 q]> {["op" := VStr "set_data"]} : dict).
  set (sl := <[var_name := VList (py_slice data_list q.1 (q.1 + q.2))]>
               {["op" := VStr "set_data"]} : dict).
  assert (ld !! "op" = Some (VStr "set_data")) as Hld_op by done.
  assert (sl !! "op" = Some (VStr "set_data")) as Hsl_op.
  { unfold sl. by rewrite lookup_insert_ne, lookup_singleton_eq. }
  assert (alive globals (send ld w)) as Hw'.
  { unfold alive. by rewrite message_loop_set_data. }
  rewrite (message_loop_set_data _ sl _ Hw' Hsl_op).
  rewrite (message_loop_set_data _ ld _ Hw Hld_op). simpl. split.
  - rewrite lookup_union_r.
    + apply lookup_union_Some_l. unfold ld.
      by rewrite lookup_delete_ne, lookup_insert_eq.
    + rewrite lookup_delete_ne by done. unfold sl.
      by rewrite lookup_insert_ne, lookup_singleton_ne.
  - apply lookup_union_Some_l. rewrite lookup_delete_ne by done.
    unfold sl. by rewrite lookup_insert_eq.
Qed.

End Shares.

(** X18: [define_list] and [split_list_and_send] cut alike.  In a pool
    started once with ready children, for a list with at least as many
    items as children and with length * participants < 2^53 (so that the
    float quotients are exact), and a name other than "op" and
    "list_def": after
    [define_list(len(data_list))] and [split_list_and_send(data_list,
    name)], every participant, child 0 to child K-1 and then main, holds
    under "list_def" its pair (offset, length) of the partition and under
    the name exactly the items of [data_list] in that range. *)
Theorem list_def_names_the_share (globals : gmap string operation)
    (data_list : list value) (var_name : string) (st : pool) :
  started st →
  Forall (ready globals) (_pipes st) →
  var_name ≠ "op" → var_name ≠ "list_def" →
  _cpu_count st - 1 ≤ len data_list →
  len data_list * _cpu_count st < 2 ^ 53 →
  let st1 := (define_list (len data_list) st).2 in
  let st2 := settle globals (split_list_and_send data_list var_name st1).2 in
  ∃ ps,
    _split 0 (len data_list) (_cpu_count st) = Return ps
    ∧ Forall2
        (λ s p, s !! "list_def" = Some (tuple2 p)
                ∧ s !! var_name = Some (VList (py_slice data_list p.1 (p.1 + p.2))))
        ((w_data <$> _pipes st2) ++ [_process_data st2]) ps.
Proof.
  intros [Hn HK] Hready Hop Hld Hlen Hex st1 st2.
  destruct (split_tiling 0 (len data_list) (_cpu_count st) (len_nonneg _) Hn Hex)
    as (ps & Hsplit & Hps & Ht).
  exists ps. split; [done|].
  set (K := length (_pipes st)).
  assert (length ps = S K) as HpsK by (unfold len in *; lia).
  destruct (lookup_lt_is_Some_2 ps K) as [[o l] Hlast]; [lia|].
  assert (py_index ps (-1) = Return (o, l)) as Hidx by by eapply py_index_minus_1.
  assert (Forall (alive globals) (_pipes st)) as Hal.
  { eapply Forall_impl; [exact Hready|]. apply ready_alive. }
  assert (st1 = set_process_data (<["list_def" := tuple2 (o, l)]> (_process_data st))
                  (set_pipes
                     (zip_with (λ w p, send (<["list_def" := tuple2 p]>
                                              {["op" := VStr "set_data"]}) w)
                        (_pipes st) ps) st)) as Hst1.
  { unfold st1, define_list. rewrite Hsplit.
    erewrite (send_loop_0 ps
                (λ p, send (<["list_def" := tuple2 p]> {["op" := VStr "set_data"]})));
      [|by intros i q w ->|lia].
    by rewrite Hidx. }
  assert (_pipes st2
          = _message_loop globals
              <$> zip_with
                    (λ w p,
                       if p.2 >? 0 then
                         send (<[var_name := VList (py_slice data_list p.1 (p.1 + p.2))]>
                                 {["op" := VStr "set_data"]}) w
                       else w)
                    (_pipes st1) ps
          ∧ _process_data st2
            = <[var_name := VList (py_slice_from data_list o)]> (_process_data st1))
    as [Hpipes Hmain].
  { unfold st2, split_list_and_send.
    replace (_cpu_count st1) with (_cpu_count st) by by rewrite Hst1.
    rewrite Hsplit.
    erewrite (send_loop_0 ps
                (λ p w,
                   if p.2 >? 0 then
                     send (<[var_name := VList (py_slice data_list p.1 (p.1 + p.2))]>
                             {["op" := VStr "set_data"]}) w
                   else w));
      [|by intros i [o' l'] w ->|].
    - by rewrite Hidx.
    - rewrite Hst1. simpl. rewrite length_zip_with. lia. }
  destruct (tiles_lookup _ _ _ _ _ _ Ht Hlast) as (Hinit & Hl & Hrest).
  pose proof (tiles_le _ _ _ Hinit) as Ho.
  assert (o + l = len data_list) as Hend.
  { rewrite drop_ge in Hrest by lia. simpl in Hrest. lia. }
  rewrite <- (take_ge ps (S K)) by lia. rewrite (take_S_r _ _ _ Hlast).
  apply Forall2_app.
  - rewrite Hpipes, Hst1. cbn [_pipes set_pipes set_process_data].
    apply shares_settled; [done|done|done|lia|].
    apply Forall_forall. intros [o' l'] [j Hj]%list_elem_of_lookup. simpl.
    apply lookup_take_Some in Hj as [Hj Hlt].
    eapply (split_positive (len data_list) (_cpu_count st)); try done.
    unfold len in *. lia.
  - constructor; [|constructor]. rewrite Hmain, Hst1.
    cbn [_process_data set_process_data set_pipes]. split.
    + by rewrite lookup_insert_ne, lookup_insert_eq.
    + rewrite lookup_insert_eq. do 2 f_equal. simpl.
      unfold py_slice_from, py_slice, clip.
      destruct (Z.ltb_spec o 0); [lia|]. destruct (Z.ltb_spec (o + l) 0); [lia|].
      rewrite take_ge; [done|]. rewrite length_drop. unfold len in *. lia.
Qed.

Lemma list_def_names_the_share_witness :
  let data_list := VInt <$> [1; 2; 3; 4; 5; 6; 7] in
  let st := fresh_pool 3 in
  let st1 := (define_list (len data_list) st).2 in
  let st2 := settle demo_globals (split_list_and_send data_list "v" st1).2 in
  started st ∧ Forall (ready demo_globals) (_pipes st)
  ∧ "v" ≠ "op" ∧ "v" ≠ "list_def" ∧ _cpu_count st - 1 ≤ len data_list
  ∧ len data_list * _cpu_count st < 2 ^ 53
  ∧ ∃ ps, _split 0 (len data_list) (_cpu_count st) = Return ps
          ∧ length ((w_data <$> _pipes st2) ++ [_process_data st2]) = length ps.
Proof.
  assert (started (fresh_pool 3)) as Hs by (by vm_compute).
  assert (Forall (ready demo_globals) (_pipes (fresh_pool 3))) as Hr
    by (repeat constructor).
  assert ("v" ≠ "op") as H1 by discriminate.
  assert ("v" ≠ "list_def") as H2 by discriminate.
  assert (_cpu_count (fresh_pool 3) - 1 ≤ len (VInt <$> [1; 2; 3; 4; 5; 6; 7])) as H3
    by (by vm_compute).
  assert (len (VInt <$> [1; 2; 3; 4; 5; 6; 7]) * _cpu_count (fresh_pool 3) < 2 ^ 53)
    as H4 by (by vm_compute).
  split; [exact Hs|]. split; [exact Hr|]. split; [exact H1|]. split; [exact H2|].
  split; [exact H3|]. split; [exact H4|].
  destruct (list_def_names_the_share demo_globals (VInt <$> [1; 2; 3; 4; 5; 6; 7]) "v"
              (fresh_pool 3) Hs Hr H1 H2 H3 H4) as (ps & Hsplit & Hall).
  exists ps. split; [exact Hsplit|]. exact (Forall2_length _ _ _ Hall).
Defined.

Example list_def_and_share :
  let data_list := VInt <$> [1; 2; 3; 4; 5; 6; 7] in
  let st1 := (define_list (len data_list) (fresh_pool 3)).2 in
  let st2 := settle demo_globals (split_list_and_send data_list "v" st1).2 in
  w_data <$> _pipes st2
  = [{["list_def" := VTuple [VInt 0; VInt 2]; "v" := VList (VInt <$> [1; 2])]};
     {["list_def" := VTuple [VInt 2; VInt 2]; "v" := VList (VInt <$> [3; 4])]}]
  ∧ _process_data st2
    = {["list_def" := VTuple [VInt 4; VInt 3]; "v" := VList (VInt <$> [5; 6; 7])]}.
Proof. by vm_compute. Qed.

Section RoundTrips.

Variable globals : gmap string operation.

(** What [split_list_and_send] leaves behind in a pool started once. *)
Lemma split_list_and_send_eq (data_list : list value) (var_name : string) (st : pool) :
  started st →
  (_cpu_count st ≤ len data_list → len data_list * _cpu_count st < 2 ^ 53) →
  ∃ ps o l,
    _split 0 (len data_list) (_cpu_count st) = Return ps
    ∧ tiles 0 ps (len data_list)
    ∧ length ps = S (length (_pipes st))
    ∧ ps !! length (_pipes st) = Some (o, l)
    ∧ split_list_and_send data_list var_name st
      = (Return tt,
         set_process_data
           (<[var_name := VList (py_slice_from data_list o)]> (_process_data st))
           (set_pipes
              (zip_with
                 (λ w p,
                    if p.2 >? 0 then
                      send (<[var_name := VList (py_slice data_list p.1 (p.1 + p.2))]>
                              {["op" := VStr "set_data"]}) w
                    else w)
                 (_pipes st) ps) st)).
Proof.
  intros [Hn HK] Hex.
  destruct (split_tiling_cases 0 (len data_list) (_cpu_count st) (len_nonneg _) Hn Hex)
    as (ps & Hsplit & Hps & Ht).
  assert (length ps = S (length (_pipes st))) as HpsK by (unfold len in *; lia).
  destruct (lookup_lt_is_Some_2 ps (length (_pipes st))) as [[o l] Hlast]; [lia|].
  exists ps, o, l. split_and!; try done.
  unfold split_list_and_send. rewrite Hsplit.
  erewrite (send_loop_0 ps
              (λ p w,
                 if p.2 >? 0 then
                   send (<[var_name := VList (py_slice data_list p.1 (p.1 + p.2))]>
                           {["op" := VStr "set_data"]}) w
                 else w));
    [|by intros i [o' l'] w ->|lia].
  by rewrite (py_index_minus_1 _ _ _ HpsK Hlast).
Qed.

(** A child whose share is empty is sent nothing and keeps what it
    held; the others hold their slice. *)
Lemma scatter_keeps (data_list : list value) (var_name : string)
    (ws : list worker) (ls : list (list value)) :
  var_name ≠ "op" →
  Forall2 (λ w l, ready globals w ∧ holds globals var_name w l) ws ls →
  ∀ qs : list (Z * Z),
    (length ws ≤ length qs)%nat →
    Forall2 (λ w l, ready globals w ∧ holds globals var_name w l)
      (zip_with
         (λ w p,
            if p.2 >? 0 then
              send (<[var_name := VList (py_slice data_list p.1 (p.1 + p.2))]>
                      {["op" := VStr "set_data"]}) w
            else w)
         ws qs)
      (zip_with (λ l p, if p.2 >? 0 then py_slice data_list p.1 (p.1 + p.2) else l)
         ls qs).
Proof.
  intros Hne. induction 1 as [|w l ws ls [Hr Hh] _ IH]; intros qs Hlen; [constructor|].
  destruct qs as [|q qs]; [simpl in Hlen; lia|]. simpl in Hlen.
  cbn [zip_with]. constructor; [|apply IH; lia].
  destruct (q.2 >? 0); [|done]. by apply ready_send_set_data.
Qed.

Lemma zip_with_empty_shares (data_list : list value) (xs : list (list value)) n e :
  (length xs ≤ n)%nat →
  zip_with (λ l p, if p.2 >? 0 then py_slice data_list p.1 (p.1 + p.2) else l)
    xs (replicate n (e, 0))
  = xs.
Proof.
  revert n. induction xs as [|x xs IH]; intros [|n] Hn; simpl in *; try done; [lia|].
  f_equal. apply IH. lia.
Qed.

Lemma zip_with_full_shares (data_list : list value) (xs : list (list value))
    (qs : list (Z * Z)) :
  length xs = length qs → Forall (λ q, 0 < q.2) qs →
  zip_with (λ l p, if p.2 >? 0 then py_slice data_list p.1 (p.1 + p.2) else l) xs qs
  = (λ p, py_slice data_list p.1 (p.1 + p.2)) <$> qs.
Proof.
  revert qs. induction xs as [|x xs IH]; intros [|q qs] Hlen Hpos; simpl in *; try done.
  apply Forall_cons in Hpos as [Hq Hpos].
  destruct (Z.gtb_spec q.2 0); [|lia]. f_equal. apply IH; [lia|done].
Qed.

End RoundTrips.

(** X20: a list shorter than the pool leaves old shares in place.  When
    every child is ready and already holds a list under the name and the
    new list has fewer items than there are children, the children beyond the list's
    length are sent nothing and keep what they held, so
    [split_list_and_send] followed by [concat_var_into_list] returns the
    list followed by the old lists of those children. *)
Theorem short_list_keeps_old_shares (globals : gmap string operation)
    (data_list : list value) (var_name : string) (st : pool)
    (ls : list (list value)) :
  started st →
  Forall2 (λ w l, ready globals w ∧ holds globals var_name w l) (_pipes st) ls →
  var_name ≠ "op" →
  len data_list < len (_pipes st) →
  (split_list_and_send data_list var_name st).1 = Return tt
  ∧ (concat_var_into_list globals var_name
       (split_list_and_send data_list var_name st).2).1
    = Return (data_list ++ concat (drop (length data_list) ls)).
Proof.
  intros Hs Hws Hop Hshort.
  destruct (split_list_and_send_eq data_list var_name st Hs)
    as (ps & o & l & Hsplit & Ht & HpsK & Hlast & ->).
  { destruct Hs as [_ HK]. lia. }
  destruct Hs as [Hn HK]. split; [done|]. cbn [snd].
  pose proof (Forall2_length _ _ _ Hws) as Hls.
  set (L := length data_list) in *. set (K := length (_pipes st)) in *.
  assert (L < K)%nat as HLK by (unfold len in *; lia).
  rewrite split_special in Hsplit by (unfold len in *; lia).
  injection Hsplit as Hps.
  set (units := (λ i, (0 + i, 1)) <$> seqZ 0 (len data_list)) in *.
  set (zeros := replicate (Z.to_nat (_cpu_count st - len data_list))
                  (0 + len data_list, 0)) in *.
  assert (length units = L) as Hunits.
  { unfold units. rewrite length_fmap, length_seqZ. unfold len. lia. }
  erewrite concat_var_into_list_order;
    [|apply (scatter_keeps globals data_list var_name _ _ Hop Hws ps); lia
     |apply lookup_insert_eq].
  simpl. f_equal.
  assert (o = len data_list) as ->.
  { rewrite <- Hps in Hlast. rewrite lookup_app_r in Hlast by lia.
    apply lookup_replicate in Hlast as [[= Ho' _] _]. lia. }
  assert (py_slice_from data_list (len data_list) = []) as ->.
  { unfold py_slice_from, clip. pose proof (len_nonneg data_list).
    destruct (Z.ltb_spec (len data_list) 0); [lia|].
    apply drop_ge. unfold len. lia. }
  rewrite app_nil_r.
  rewrite <- (take_drop L ls) at 1. rewrite <- Hps.
  rewrite zip_with_app by (rewrite length_take; lia).
  rewrite concat_app. f_equal.
  - rewrite zip_with_full_shares.
    + assert (tiles 0 units (len data_list)) as Htu.
      { replace (len data_list) with (0 + len data_list) at 2 by lia.
        replace units with (cuts (λ i, 0 + i) 0 (len data_list)).
        - apply (tiles_cuts (λ i, 0 + i) 0 (len data_list)); [apply len_nonneg|].
          intros; lia.
        - unfold cuts, units. apply list_fmap_ext. intros _ i _. f_equal. lia. }
      rewrite (tiles_slices _ _ _ _ Htu) by lia.
      rewrite drop_0, Z.sub_0_r. apply take_ge. unfold len. lia.
    + rewrite length_take. lia.
    + unfold units. rewrite Forall_fmap. apply Forall_true. intros i. simpl. lia.
  - f_equal. unfold zeros. apply zip_with_empty_shares.
    rewrite length_drop. unfold len in *. lia.
Qed.

Lemma short_list_keeps_old_shares_witness :
  let old := VInt <$> [1; 2; 3; 4; 5; 6] in
  let st := (split_list_and_send old "v" (fresh_pool 4)).2 in
  let ls := [[VInt 1]; [VInt 2; VInt 3]; [VInt 4]] in
  started st
  ∧ Forall2 (λ w l, ready demo_globals w ∧ holds demo_globals "v" w l) (_pipes st) ls
  ∧ "v" ≠ "op"
  ∧ len [VInt 9] < len (_pipes st)
  ∧ (concat_var_into_list demo_globals "v"
       (split_list_and_send [VInt 9] "v" st).2).1
    = Return [VInt 9; VInt 2; VInt 3; VInt 4].
Proof.
  assert (started (split_list_and_send (VInt <$> [1; 2; 3; 4; 5; 6]) "v" (fresh_pool 4)).2)
    as Hs by (by vm_compute).
  assert (Forall2 (λ w l, ready demo_globals w ∧ holds demo_globals "v" w l)
            (_pipes (split_list_and_send (VInt <$> [1; 2; 3; 4; 5; 6]) "v" (fresh_pool 4)).2)
            [[VInt 1]; [VInt 2; VInt 3]; [VInt 4]]) as Hws.
  { repeat constructor. }
  assert ("v" ≠ "op") as Hop by discriminate.
  assert (len [VInt 9]
          < len (_pipes (split_list_and_send (VInt <$> [1; 2; 3; 4; 5; 6]) "v"
                           (fresh_pool 4)).2)) as Hshort by (by vm_compute).
  split; [exact Hs|]. split; [exact Hws|]. split; [exact Hop|]. split; [exact Hshort|].
  destruct (short_list_keeps_old_shares demo_globals [VInt 9] "v" _ _ Hs Hws Hop Hshort)
    as [_ H].
  exact H.
Defined.

